(** * Safer routing: risk scoring and route selection

    A shallow embedding of the decision logic of the front end:

    - [src/frontend/App.jsx]: [nowIsNight], [effectiveMode], [riskScore],
      [fetchRoutes] and the scoring, sorting and reporting part of
      [handleGetRoute]; then the choice of the hotspot file, the hotspot
      layer, [geocode] and the whole of [handleGetRoute] with the layers it
      draws on;
    - [src/frontend/components/MapWithSaferRouting.jsx]: [calculateRoute],
      then the inputs of the form as events on the component's state.

    JavaScript numbers that the code only compares or subtracts are finite
    doubles read from JSON; they are modelled by the rationals they denote
    ([Q], compared with [Qeq]/[Qlt]): the sign of a difference of two finite
    doubles is the sign of the exact difference.  Counts are [nat].
    Exceptions are explicit: a computation returns [Normal v] or
    [Throw message]. *)

From Stdlib Require Import String Ascii.
From Stdlib Require Import List Bool Arith ZArith QArith Lia Lqa.
From Stdlib Require Import Permutation Sorted DecimalString.
Import ListNotations.

Local Open Scope string_scope.
Local Open Scope nat_scope.

(** ** Completions: a value or a thrown [Error] with its message *)

Inductive completion (A : Type) : Type :=
| Normal (value : A)
| Throw (message : string).

Arguments Normal {A} value.
Arguments Throw {A} message.

Definition bind {A B : Type} (c : completion A) (k : A -> completion B)
  : completion B :=
  match c with
  | Normal v => k v
  | Throw m => Throw m
  end.

Notation "x <- c ;; k" := (bind c (fun x => k))
  (at level 61, c at next level, right associativity).

(** [xs.map(f)] where [f] may throw: the first exception aborts the map. *)
Fixpoint Array_map {A B : Type} (f : A -> completion B) (xs : list A)
  : completion (list B) :=
  match xs with
  | [] => Normal []
  | x :: rest =>
      y <- f x ;;
      ys <- Array_map f rest ;;
      Normal (y :: ys)
  end.

(** ** GeoJSON values, as the code reads them *)

Module GeoJSON.

(** A position is [[lng, lat]]. *)
Definition Position : Type := (Q * Q)%type.

(** [f.geometry]: only [type] and, for a polygon, [coordinates] (a list of
    linear rings) are read. *)
Record Geometry : Type := mkGeometry {
  type : string;
  coordinates : list (list Position)
}.

(** [f.geometry] may be missing ([f.geometry?.type]). *)
Record Feature : Type := mkFeature {
  geometry : option Geometry
}.

(** [hotspotFC.features] may be missing ([hotspotFC?.features?.length]). *)
Record FeatureCollection : Type := mkFeatureCollection {
  features : option (list Feature)
}.

End GeoJSON.

Import GeoJSON.

(** ** The turf helpers the code calls

    [turf.lineString] and [turf.polygon] (package [@turf/helpers]) validate
    their argument and throw an [Error]; the features they build carry the
    coordinates unchanged. *)

Definition LineString : Type := list Position.
Definition Polygon : Type := list (list Position).

Definition turf_lineString (coords : list Position) : completion LineString :=
  if length coords <? 2
  then Throw "coordinates must be an array of two or more positions"
  else Normal coords.

(** [ring[ring.length - 1][j] !== ring[0][j]] for both ordinates. *)
Definition position_eqb (p q : Position) : bool :=
  Qeq_bool (fst p) (fst q) && Qeq_bool (snd p) (snd q).

Definition origin_position : Position := (0%Q, 0%Q).

Definition ring_check (ring : list Position) : completion unit :=
  if length ring <? 4
  then Throw "Each LinearRing of a Polygon must have 4 or more Positions."
  else if position_eqb (last ring origin_position) (hd origin_position ring)
       then Normal tt
       else Throw "First and last Position are not equivalent.".

Fixpoint rings_check (rings : list (list Position)) : completion unit :=
  match rings with
  | [] => Normal tt
  | ring :: rest => _ <- ring_check ring ;; rings_check rest
  end.

Definition turf_polygon (coords : list (list Position)) : completion Polygon :=
  _ <- rings_check coords ;; Normal coords.

(** The same validation as a boolean. *)
Definition ring_ok (ring : list Position) : bool :=
  (4 <=? length ring)
  && position_eqb (last ring origin_position) (hd origin_position ring).

Definition rings_ok (rings : list (list Position)) : bool :=
  forallb ring_ok rings.

(** ** [effectiveMode] (App.jsx, lines 34-41) *)

(** [nowIsNight], with the hour read from the clock made an argument. *)
Definition nowIsNight (h : Z) : bool :=
  ((h >=? 21) || (h <=? 4))%Z.

Definition effectiveMode (timeMode : string) (h : Z) : string :=
  if (timeMode =? "day")%string || (timeMode =? "night")%string
  then timeMode
  else if nowIsNight h then "night" else "day".

(** ** [riskScore] (App.jsx, lines 78-87) *)

Section RiskScore.

(** [turf.booleanIntersects(line, poly)]: a geometric predicate of the
    line and the polygon, which may throw instead of answering (it does for
    a polygon without rings). *)
Variable booleanIntersects : LineString -> Polygon -> completion bool.

(** [f.geometry?.type !== "Polygon"] is false. *)
Definition isPolygon (f : Feature) : bool :=
  match geometry f with
  | None => false
  | Some g => (type g =? "Polygon")%string
  end.

Definition featureCoordinates (f : Feature) : list (list Position) :=
  match geometry f with
  | None => []
  | Some g => coordinates g
  end.

(** The body of the [for ... of] loop, with the running [score]. *)
Fixpoint riskScore_loop (routeGeoJsonLine : LineString)
    (fs : list Feature) (score : nat) : completion nat :=
  match fs with
  | [] => Normal score
  | f :: rest =>
      if negb (isPolygon f)
      then riskScore_loop routeGeoJsonLine rest score
      else
        poly <- turf_polygon (featureCoordinates f) ;;
        hit <- booleanIntersects routeGeoJsonLine poly ;;
        if hit
        then riskScore_loop routeGeoJsonLine rest (score + 1)
        else riskScore_loop routeGeoJsonLine rest score
  end.

(** [!hotspotFC?.features?.length] *)
Definition noHotspots (hotspotFC : option FeatureCollection) : bool :=
  match hotspotFC with
  | None => true
  | Some fc =>
      match features fc with
      | None => true
      | Some fs => length fs =? 0
      end
  end.

Definition hotspotFeatures (hotspotFC : option FeatureCollection)
  : list Feature :=
  match hotspotFC with
  | None => []
  | Some fc =>
      match features fc with
      | None => []
      | Some fs => fs
      end
  end.

Definition riskScore (routeGeoJsonLine : LineString)
    (hotspotFC : option FeatureCollection) : completion nat :=
  if noHotspots hotspotFC then Normal 0
  else riskScore_loop routeGeoJsonLine (hotspotFeatures hotspotFC) 0.

End RiskScore.

(** ** The routing service's answer, as [fetchRoutes] reads it *)

Module Osrm.

(** One element of [js.routes]: [coordinates] is [r.geometry.coordinates],
    [distance] is in meters, [duration] in seconds. *)
Record Route : Type := mkRoute {
  coordinates : list Position;
  distance : Q;
  duration : Q
}.

Record Response : Type := mkResponse {
  code : string;
  message : option string;
  routes : option (list Route)
}.

End Osrm.

(** [s || fallback] for a string that may be missing: the empty string is
    falsy. *)
Definition string_or (s : option string) (fallback : string) : string :=
  match s with
  | None => fallback
  | Some EmptyString => fallback
  | Some m => m
  end.

(** [!js.routes?.length] is false: [js.routes] is there and not empty. *)
Definition hasRoutes (js : Osrm.Response) : bool :=
  match Osrm.routes js with
  | None => false
  | Some rs => negb (length rs =? 0)
  end.

Definition routesOf (js : Osrm.Response) : list Osrm.Route :=
  match Osrm.routes js with
  | None => []
  | Some rs => rs
  end.

(** [fetchRoutes] (App.jsx, lines 90-98), from the parsed answer [js] on. *)
Definition fetchRoutes (js : Osrm.Response) : completion (list Osrm.Route) :=
  if negb (Osrm.code js =? "Ok")%string || negb (hasRoutes js)
  then Throw (string_or (Osrm.message js) "Routing failed")
  else Normal (routesOf js).

(** ** [Array.prototype.sort] with a comparator

    The comparator returns a number: negative puts its first argument first,
    positive its second, zero leaves the two as they are.  The sort is stable
    (ECMAScript 2019; engines before it sorted arrays of at most ten elements
    by insertion): elements are inserted one by one and an element never
    moves past one it compares equal to. *)

Section ArraySort.

Context {A : Type}.
Variable comparefn : A -> A -> Q.

Fixpoint insert (x : A) (sorted : list A) : list A :=
  match sorted with
  | [] => [x]
  | y :: rest =>
      if Qle_bool (comparefn x y) 0
      then x :: y :: rest
      else y :: insert x rest
  end.

Fixpoint Array_sort (xs : list A) : list A :=
  match xs with
  | [] => []
  | x :: rest => insert x (Array_sort rest)
  end.

End ArraySort.

(** ** Scoring, ranking and reporting in [handleGetRoute] (lines 119-154)

    Geocoding and the markers come first and decide nothing here: the
    model starts from the routing service's parsed answer [js] and the
    hotspot collection [hotspotsGeo] held in the component's state. *)

(** An element of [scored]. *)
Record Scored : Type := mkScored {
  route : Osrm.Route;
  line : LineString;
  risk : nat;
  distance : Q;
  duration : Q
}.

(** The comparator of [scored.sort] (lines 133-136). *)
Definition compareFn (a b : Scored) : Q :=
  if negb (risk a =? risk b)
  then inject_Z (Z.of_nat (risk a) - Z.of_nat (risk b))
  else (distance b - distance a)%Q.

Definition rank (scored : list Scored) : list Scored :=
  Array_sort compareFn scored.

(** [Math.max(...[x, ...rest])]; the one call spreads an array whose first
    element is [best]. *)
Definition Math_max (x : nat) (rest : list nat) : nat :=
  fold_left Nat.max rest x.

(** What [setStatus] receives at lines 150-154. *)
Inductive Status : Type :=
| AvoidsAll
| Safest (bestRisk : nat) (upTo : nat).

Definition number_to_string (n : nat) : string :=
  NilZero.string_of_uint (Nat.to_uint n).

Definition statusText (s : Status) : string :=
  match s with
  | AvoidsAll => "Selected a route that avoids all hotspot polygons."
  | Safest r m =>
      "Selected safest route (risk=" ++ number_to_string r
      ++ "). Other routes had up to " ++ number_to_string m ++ "."
  end.

(** The maximum risk the status reports, when it reports one. *)
Definition maxRiskObserved (s : Status) : option nat :=
  match s with
  | AvoidsAll => None
  | Safest _ m => Some m
  end.

Record Selection : Type := mkSelection {
  best : Scored;
  allScored : list Scored;
  status : Status
}.

Section HandleGetRoute.

Variable booleanIntersects : LineString -> Polygon -> completion bool.
Variable hotspotsGeo : option FeatureCollection.

(** The callback of [routes.map] (lines 122-131). *)
Definition scoreRoute (r : Osrm.Route) : completion Scored :=
  ls <- turf_lineString (Osrm.coordinates r) ;;
  k <- riskScore booleanIntersects ls hotspotsGeo ;;
  Normal {| route := r; line := ls; risk := k;
            distance := Osrm.distance r; duration := Osrm.duration r |}.

(** Lines 133-154 on the array [scored]. *)
Definition choose (scored : list Scored) : completion Selection :=
  match rank scored with
  | [] => Throw "Cannot read properties of undefined (reading 'risk')"
  | best :: others =>
      Normal {| best := best;
                allScored := best :: others;
                status :=
                  if risk best =? 0 then AvoidsAll
                  else Safest (risk best)
                              (Math_max (risk best) (map risk others)) |}
  end.

(** Lines 119-154: fetch, score, sort, pick. *)
Definition selectRoute (js : Osrm.Response) : completion Selection :=
  routes <- fetchRoutes js ;;
  scored <- Array_map scoreRoute routes ;;
  choose scored.

(** The status line [handleGetRoute] ends with, the [catch] included. *)
Definition handleGetRoute (js : Osrm.Response) : string :=
  match selectRoute js with
  | Normal sel => statusText (status sel)
  | Throw m => "Error: " ++ string_or (Some m) "Error"
  end.

End HandleGetRoute.

(** ** [calculateRoute] (MapWithSaferRouting.jsx, lines 30-34) *)

Module MapWithSaferRouting.

(** What [parseFloat] yields. *)
Inductive number : Type :=
| NaN
| Finite (q : Q).

(** [[lat, lng]] *)
Definition LatLng : Type := (number * number)%type.

(** The component's state. *)
Record State : Type := mkState {
  origin : option LatLng;
  destination : option LatLng;
  timeMode : string;
  detourStrength : string;
  dayHotspots : list LatLng;
  nightHotspots : list LatLng
}.

Definition hotspots (st : State) : list LatLng :=
  if (timeMode st =? "day")%string then dayHotspots st else nightHotspots st.

(** An array is truthy, so [!origin] holds only for [null]. *)
Definition calculateRoute (st : State) : list LatLng :=
  match origin st, destination st with
  | Some o, Some d => [o; d]
  | _, _ => []
  end.

End MapWithSaferRouting.

(** ** Specification-side notions *)

(** The polygons of a hotspot collection: the coordinates of its features
    of type [Polygon], in order. *)
Definition polygonsAmong (fs : list Feature) : list Polygon :=
  map featureCoordinates (filter isPolygon fs).

Definition polygons (hotspotFC : option FeatureCollection) : list Polygon :=
  polygonsAmong (hotspotFeatures hotspotFC).

(** The intersection predicate returns [true] for the line and the
    polygon. *)
Definition returnsTrue
    (booleanIntersects : LineString -> Polygon -> completion bool)
    (l : LineString) (poly : Polygon) : bool :=
  match booleanIntersects l poly with
  | Normal hit => hit
  | Throw _ => false
  end.

(** The intersection predicate returns, [true] or [false]. *)
Definition returns
    (booleanIntersects : LineString -> Polygon -> completion bool)
    (l : LineString) (poly : Polygon) : bool :=
  match booleanIntersects l poly with
  | Normal _ => true
  | Throw _ => false
  end.

(** How many polygons of the collection the predicate returns [true]
    for. *)
Definition intersectionCount
    (booleanIntersects : LineString -> Polygon -> completion bool)
    (l : LineString) (hotspotFC : option FeatureCollection) : nat :=
  length (filter (returnsTrue booleanIntersects l) (polygons hotspotFC)).

(** The predicate returns for the line and every polygon of the
    collection. *)
Definition intersectsReturns
    (booleanIntersects : LineString -> Polygon -> completion bool)
    (l : LineString) (hotspotFC : option FeatureCollection) : bool :=
  forallb (returns booleanIntersects l) (polygons hotspotFC).

(** Every ring of every polygon of the collection is closed and has at
    least four positions. *)
Definition closedRings (hotspotFC : option FeatureCollection) : bool :=
  forallb rings_ok (polygons hotspotFC).

(** The collection restricted to its features of type [Polygon]. *)
Definition polygonsOnly (hotspotFC : option FeatureCollection)
  : option FeatureCollection :=
  Some (mkFeatureCollection
          (Some (filter isPolygon (hotspotFeatures hotspotFC)))).

(** What [scoreRoute] puts in a scored route. *)
Definition scoredFrom
    (booleanIntersects : LineString -> Polygon -> completion bool)
    (hotspotsGeo : option FeatureCollection) (s : Scored) : Prop :=
  line s = Osrm.coordinates (route s)
  /\ distance s = Osrm.distance (route s)
  /\ duration s = Osrm.duration (route s)
  /\ riskScore booleanIntersects (line s) hotspotsGeo = Normal (risk s).

(** The ranking order: lower risk first; on equal risk, the longer first. *)
Definition precedes (a b : Scored) : Prop :=
  risk a < risk b \/ (risk a = risk b /\ (distance b <= distance a)%Q).

(** Equal risk and equal distance. *)
Definition tied (a b : Scored) : bool :=
  (risk a =? risk b) && Qeq_bool (distance a) (distance b).

(** ** Sample data *)

Module Sample.

(** A toy intersection predicate: the line passes through a vertex of the
    polygon. *)
Definition sharesVertex (l : LineString) (poly : Polygon) : bool :=
  existsb (fun p => existsb (position_eqb p) l) (concat poly).

(** The predicate of the samples: like [turf.booleanIntersects] it throws
    for a polygon without rings; otherwise it answers [sharesVertex]. *)
Definition booleanIntersects (l : LineString) (poly : Polygon)
  : completion bool :=
  match poly with
  | [] => Throw "Cannot read properties of undefined (reading 'length')"
  | _ :: _ => Normal (sharesVertex l poly)
  end.

Definition square (x y : Z) : list Position :=
  [ (inject_Z x, inject_Z y); (inject_Z (x + 1), inject_Z y);
    (inject_Z (x + 1), inject_Z (y + 1)); (inject_Z x, inject_Z (y + 1));
    (inject_Z x, inject_Z y) ].

Definition polygonFeature (rings : list (list Position)) : Feature :=
  mkFeature (Some (mkGeometry "Polygon" rings)).

Definition pointFeature : Feature :=
  mkFeature (Some (mkGeometry "Point" [])).

Definition noGeometry : Feature := mkFeature None.

(** A ring whose last position differs from its first. *)
Definition openRing : list Position :=
  [ (0, 0); (1, 0); (1, 1); (0, 1) ]%Q.

Definition hotspots : option FeatureCollection :=
  Some (mkFeatureCollection
          (Some [ polygonFeature [square 0 0]; pointFeature;
                  polygonFeature [square 5 5]; noGeometry;
                  polygonFeature [square 9 9] ])).

Definition malformed : option FeatureCollection :=
  Some (mkFeatureCollection
          (Some [ polygonFeature [square 0 0]; polygonFeature [openRing] ])).

(** A ring of three positions. *)
Definition triangle : list Position :=
  [ (0, 0); (1, 0); (0, 0) ]%Q.

Definition tooShort : option FeatureCollection :=
  Some (mkFeatureCollection
          (Some [ polygonFeature [square 0 0]; polygonFeature [triangle] ])).

(** A polygon feature without rings. *)
Definition ringless : option FeatureCollection :=
  Some (mkFeatureCollection
          (Some [ polygonFeature [square 0 0]; polygonFeature [] ])).

(** A polygon feature without rings between two squares. *)
Definition ringlessSecond : option FeatureCollection :=
  Some (mkFeatureCollection
          (Some [ polygonFeature [square 0 0]; polygonFeature [];
                  polygonFeature [square 5 5] ])).

(** [malformed] without its entry with the open ring. *)
Definition wellFormedPart : option FeatureCollection :=
  Some (mkFeatureCollection (Some [ polygonFeature [square 0 0] ])).

(** Three routes: through two hotspots, through none (4000 m), through
    none (4500 m). *)
Definition risky : Osrm.Route :=
  Osrm.mkRoute [ (0, 0); (5, 5); (7, 7) ]%Q 5000 600.
Definition short : Osrm.Route :=
  Osrm.mkRoute [ (0, 3); (3, 7); (7, 7) ]%Q 4000 500.
Definition long : Osrm.Route :=
  Osrm.mkRoute [ (0, 3); (2, 8); (7, 7) ]%Q 4500 550.

Definition answer : Osrm.Response :=
  Osrm.mkResponse "Ok" None (Some [risky; short; long]).

(** A route through one hotspot. *)
Definition medium : Osrm.Route :=
  Osrm.mkRoute [ (5, 5); (7, 7) ]%Q 3000 400.

Definition riskyAnswer : Osrm.Response :=
  Osrm.mkResponse "Ok" None (Some [risky; medium]).

Definition scoredAs (r : Osrm.Route) (k : nat) : Scored :=
  {| route := r; line := Osrm.coordinates r; risk := k;
     distance := Osrm.distance r; duration := Osrm.duration r |}.

(** [answer] with its routes in another order. *)
Definition answerReordered : Osrm.Response :=
  Osrm.mkResponse "Ok" None (Some [long; risky; short]).

(** What [answer] is ranked to over [hotspots]. *)
Definition selection : Selection :=
  {| best := scoredAs long 0;
     allScored := [scoredAs long 0; scoredAs short 0; scoredAs risky 2];
     status := AvoidsAll |}.

(** What [riskyAnswer] is ranked to over [hotspots]. *)
Definition riskySelection : Selection :=
  {| best := scoredAs medium 1;
     allScored := [scoredAs medium 1; scoredAs risky 2];
     status := Safest 1 2 |}.

(** What [answer] is ranked to with no hotspot data. *)
Definition unscoredSelection : Selection :=
  {| best := scoredAs risky 0;
     allScored := [scoredAs risky 0; scoredAs long 0; scoredAs short 0];
     status := AvoidsAll |}.

End Sample.

(** ** The hotspot file to load (App.jsx, line 44) *)

Definition hotspotsUrl (timeMode : string) (h : Z) : string :=
  if (effectiveMode timeMode h =? "night")%string
  then "/hotspots_night_ml.geojson"
  else "/hotspots_day_ml.geojson".

(** ** What is put on the map *)

Module Leaflet.

(** [[lat, lng]] *)
Definition LatLng : Type := (Q * Q)%type.

(** [L.polygon(coords, ...)]: the style is the same for every polygon. *)
Definition Polygon : Type := list LatLng.

(** [L.polyline(latlngs, { color, weight, opacity })] *)
Record Polyline : Type := mkPolyline {
  latlngs : list LatLng;
  color : string;
  weight : nat;
  opacity : Q
}.

(** [L.marker(latlng).bindPopup(popup)] *)
Record Marker : Type := mkMarker {
  latlng : LatLng;
  popup : string
}.

End Leaflet.

(** [([lng, lat]) => [lat, lng]] *)
Definition toLatLng (p : Position) : Leaflet.LatLng := (snd p, fst p).

(** The way back, from [[lat, lng]] to [[lng, lat]]. *)
Definition toPosition (p : Leaflet.LatLng) : Position := (snd p, fst p).

(** ** The hotspot layer (App.jsx, lines 52-66)

    The layer group is cleared, then every feature of type [Polygon] adds
    the polygon of its first ring.  [f.geometry.coordinates[0]] of a polygon
    without rings is [undefined], and its [.map] throws: the polygons added
    before stay in the group. *)

Record HotspotLayer : Type := mkHotspotLayer {
  shapes : list Leaflet.Polygon;
  thrown : option string
}.

Fixpoint drawHotspots_forEach (fs : list Feature)
    (group : list Leaflet.Polygon) : HotspotLayer :=
  match fs with
  | [] => mkHotspotLayer group None
  | f :: rest =>
      if negb (isPolygon f) then drawHotspots_forEach rest group
      else
        match featureCoordinates f with
        | [] =>
            mkHotspotLayer group
              (Some "Cannot read properties of undefined (reading 'map')")
        | ring :: _ =>
            drawHotspots_forEach rest (group ++ [map toLatLng ring])
        end
  end.

(** [!hotspotsGeo?.features]: an array, even an empty one, is truthy. *)
Definition drawHotspots (hotspotsGeo : option FeatureCollection)
  : HotspotLayer :=
  match hotspotsGeo with
  | None => mkHotspotLayer [] None
  | Some fc =>
      match features fc with
      | None => mkHotspotLayer [] None
      | Some fs => drawHotspots_forEach fs []
      end
  end.

(** ** The route layer (App.jsx, lines 141-148) *)

(** The callback of [scored.forEach((s, idx) => ...)]. *)
Definition routePolyline (s : Scored) (idx : nat) : Leaflet.Polyline :=
  {| Leaflet.latlngs := map toLatLng (Osrm.coordinates (route s));
     Leaflet.color := if idx =? 0 then "#1e88e5" else "#9e9e9e";
     Leaflet.weight := if idx =? 0 then 5 else 3;
     Leaflet.opacity := if idx =? 0 then 0.9%Q else 0.5%Q |}.

(** [xs.forEach((x, idx) => f(x, idx).addTo(group))], from index [idx] on. *)
Fixpoint forEach_addTo {A B : Type} (f : A -> nat -> B) (xs : list A)
    (idx : nat) (group : list B) : list B :=
  match xs with
  | [] => group
  | x :: rest => forEach_addTo f rest (S idx) (group ++ [f x idx])
  end.

Definition drawRoutes (scored : list Scored)
    (routeLayer : list Leaflet.Polyline) : list Leaflet.Polyline :=
  forEach_addTo routePolyline scored 0 routeLayer.

(** The text of the status line for a selection (lines 150-154). *)
Definition selectionText (sel : Selection) : string :=
  statusText (status sel).

(** ** Geocoding and the whole of [handleGetRoute] (App.jsx, lines 69-75
    and 100-158)

    The model covers a run of the handler in which the three requests are
    answered with JSON and which no other run overlaps.  Of [fitBounds]
    (line 116) it keeps whether it throws; the view it sets is not part of
    the state. *)

Module Nominatim.

(** One element of the answer: [lat] and [lon] are strings, or missing. *)
Record Hit : Type := mkHit {
  lat : option string;
  lon : option string
}.

(** The parsed answer: an array of hits, or some other JSON value. *)
Inductive Answer : Type :=
| NotAnArray
| Hits (hits : list Hit).

End Nominatim.

Module App.

(** A JavaScript number that may be [NaN]. *)
Definition number : Type := MapWithSaferRouting.number.

(** What [geocode] returns when it does not return [null]. *)
Record Place : Type := mkPlace {
  lat : number;
  lng : number
}.

(** The three layer groups and the status line. *)
Record State : Type := mkState {
  hotspots : list Leaflet.Polygon;
  route : list Leaflet.Polyline;
  pins : list Leaflet.Marker;
  status : string
}.

Section Handler.

(** [parseFloat] on a string, and the conversion of a number to a string;
    [parseFloat(undefined)] is [NaN]. *)
Variable parseFloat : string -> number.
Variable numberToString : number -> string.
Variable booleanIntersects : LineString -> Polygon -> completion bool.

(** [mapRef.current.fitBounds(L.latLngBounds([a, b]))]: Leaflet sets the
    view, or throws when it cannot compute one. *)
Variable fitBounds : Leaflet.LatLng -> Leaflet.LatLng -> completion unit.

Definition parseField (field : option string) : number :=
  match field with
  | None => MapWithSaferRouting.NaN
  | Some s => parseFloat s
  end.

(** [geocode] (lines 69-75), from the parsed answer [js] on. *)
Definition geocode (js : Nominatim.Answer) : option Place :=
  match js with
  | Nominatim.NotAnArray => None
  | Nominatim.Hits [] => None
  | Nominatim.Hits (first :: _) =>
      Some {| lat := parseField (Nominatim.lat first);
              lng := parseField (Nominatim.lon first) |}
  end.

(** [L.marker([lat, lng]).bindPopup(popup)]: Leaflet's [LatLng] refuses
    [NaN]. *)
Definition L_marker (p : Place) (popup : string)
  : completion Leaflet.Marker :=
  match lat p, lng p with
  | MapWithSaferRouting.Finite a, MapWithSaferRouting.Finite b =>
      Normal (Leaflet.mkMarker (a, b) popup)
  | _, _ =>
      Throw ("Invalid LatLng object: (" ++ numberToString (lat p) ++ ", "
             ++ numberToString (lng p) ++ ")")
  end.

Definition setStatus (text : string) (st : State) : State :=
  {| hotspots := hotspots st; route := route st; pins := pins st;
     status := text |}.

(** [pins.clearLayers(); routeLayer.clearLayers()] *)
Definition clearLayers (st : State) : State :=
  {| hotspots := hotspots st; route := []; pins := []; status := status st |}.

(** [marker.addTo(pins)] *)
Definition addPin (m : Leaflet.Marker) (st : State) : State :=
  {| hotspots := hotspots st; route := route st; pins := pins st ++ [m];
     status := status st |}.

Definition setRoute (layer : list Leaflet.Polyline) (st : State) : State :=
  {| hotspots := hotspots st; route := layer; pins := pins st;
     status := status st |}.

(** The [catch] clause: [setStatus("Error: " + (e?.message || String(e)))]. *)
Definition caught (m : string) (st : State) : State :=
  setStatus ("Error: " ++ string_or (Some m) "Error") st.

(** Lines 118-154, once both markers are on the map. *)
Definition routeAndReport (hotspotsGeo : option FeatureCollection)
    (js : Osrm.Response) (st : State) : State :=
  let st := setStatus "Fetching routes & scoring risk..." st in
  match selectRoute booleanIntersects hotspotsGeo js with
  | Normal sel =>
      setStatus (selectionText sel)
        (setRoute (drawRoutes (allScored sel) (route st)) st)
  | Throw m => caught m st
  end.

(** [handleGetRoute] (lines 100-158). *)
Definition handleGetRoute (jsA jsB : Nominatim.Answer)
    (hotspotsGeo : option FeatureCollection) (js : Osrm.Response)
    (st : State) : State :=
  let st := setStatus "Geocoding places..." st in
  match geocode jsA, geocode jsB with
  | Some A, Some B =>
      let st := clearLayers st in
      match L_marker A "Origin" with
      | Throw m => caught m st
      | Normal o =>
          let st := addPin o st in
          match L_marker B "Destination" with
          | Throw m => caught m st
          | Normal d =>
              let st := addPin d st in
              match fitBounds (Leaflet.latlng o) (Leaflet.latlng d) with
              | Throw m => caught m st
              | Normal _ => routeAndReport hotspotsGeo js st
              end
          end
      end
  | _, _ => setStatus "Could not geocode one of the places." st
  end.

End Handler.

End App.

(** ** The form of [MapWithSaferRouting] (lines 8-13 and 43-98) *)

Module Form.

Import MapWithSaferRouting.

(** The [0] that stands in for an ordinate not entered yet. *)
Definition zero : number := Finite 0.

(** [(prev) => [v, prev ? prev[1] : 0]] *)
Definition withLat (v : number) (prev : option LatLng) : option LatLng :=
  Some (v, match prev with Some p => snd p | None => zero end).

(** [(prev) => [prev ? prev[0] : 0, v]] *)
Definition withLng (v : number) (prev : option LatLng) : option LatLng :=
  Some (match prev with Some p => fst p | None => zero end, v).

(** What the user and the two hotspot requests do to the state; a number is
    what [parseFloat(e.target.value)] gave. *)
Inductive Event : Type :=
| OriginLat (v : number)
| OriginLng (v : number)
| DestinationLat (v : number)
| DestinationLng (v : number)
| TimeMode (value : string)
| DetourStrength (value : string)
| DayHotspots (data : list LatLng)
| NightHotspots (data : list LatLng).

Definition step (st : State) (e : Event) : State :=
  match e with
  | OriginLat v =>
      mkState (withLat v (origin st)) (destination st) (timeMode st)
        (detourStrength st) (dayHotspots st) (nightHotspots st)
  | OriginLng v =>
      mkState (withLng v (origin st)) (destination st) (timeMode st)
        (detourStrength st) (dayHotspots st) (nightHotspots st)
  | DestinationLat v =>
      mkState (origin st) (withLat v (destination st)) (timeMode st)
        (detourStrength st) (dayHotspots st) (nightHotspots st)
  | DestinationLng v =>
      mkState (origin st) (withLng v (destination st)) (timeMode st)
        (detourStrength st) (dayHotspots st) (nightHotspots st)
  | TimeMode value =>
      mkState (origin st) (destination st) value
        (detourStrength st) (dayHotspots st) (nightHotspots st)
  | DetourStrength value =>
      mkState (origin st) (destination st) (timeMode st)
        value (dayHotspots st) (nightHotspots st)
  | DayHotspots data =>
      mkState (origin st) (destination st) (timeMode st)
        (detourStrength st) data (nightHotspots st)
  | NightHotspots data =>
      mkState (origin st) (destination st) (timeMode st)
        (detourStrength st) (dayHotspots st) data
  end.

Definition run (st : State) (events : list Event) : State :=
  fold_left step events st.

(** The [useState] defaults. *)
Definition initial : State := mkState None None "day" "normal" [] [].

(** The ordinates of a point, [zero] for a point not set. *)
Definition latOf (p : option LatLng) : number :=
  match p with Some q => fst q | None => zero end.

Definition lngOf (p : option LatLng) : number :=
  match p with Some q => snd q | None => zero end.

(** The events that write the origin, and those that write the
    destination. *)
Definition writesOrigin (e : Event) : bool :=
  match e with
  | OriginLat _ | OriginLng _ => true
  | _ => false
  end.

Definition writesDestination (e : Event) : bool :=
  match e with
  | DestinationLat _ | DestinationLng _ => true
  | _ => false
  end.

(** The last latitude entered for the origin, [zero] if there is none;
    likewise for the other three fields. *)
Fixpoint lastOf (pick : Event -> option number) (events : list Event)
    (default : number) : number :=
  match events with
  | [] => default
  | e :: rest =>
      lastOf pick rest (match pick e with Some v => v | None => default end)
  end.

Definition originLat (e : Event) : option number :=
  match e with OriginLat v => Some v | _ => None end.
Definition originLng (e : Event) : option number :=
  match e with OriginLng v => Some v | _ => None end.
Definition destinationLat (e : Event) : option number :=
  match e with DestinationLat v => Some v | _ => None end.
Definition destinationLng (e : Event) : option number :=
  match e with DestinationLng v => Some v | _ => None end.

End Form.

(** ** Notions used to state what the map shows *)

(** The collection with exactly the features [fs]. *)
Definition collectionOf (fs : list Feature) : option FeatureCollection :=
  Some (mkFeatureCollection (Some fs)).

(** The polygons before the first one without rings. *)
Fixpoint beforeRingless (polys : list Polygon) : list Polygon :=
  match polys with
  | [] => []
  | [] :: _ => []
  | poly :: rest => poly :: beforeRingless rest
  end.

(** The first ring of a polygon, as Leaflet takes it. *)
Definition outerRing (poly : Polygon) : Leaflet.Polygon :=
  map toLatLng (hd [] poly).

(** The polyline of the winner, and that of any other route. *)
Definition highlighted (s : Scored) : Leaflet.Polyline :=
  Leaflet.mkPolyline (map toLatLng (Osrm.coordinates (route s)))
    "#1e88e5" 5 0.9%Q.

Definition plain (s : Scored) : Leaflet.Polyline :=
  Leaflet.mkPolyline (map toLatLng (Osrm.coordinates (route s)))
    "#9e9e9e" 3 0.5%Q.

(** The point Leaflet accepts for a place, when no ordinate is [NaN]. *)
Definition placeLatLng (p : App.Place) : option Leaflet.LatLng :=
  match App.lat p, App.lng p with
  | MapWithSaferRouting.Finite a, MapWithSaferRouting.Finite b => Some (a, b)
  | _, _ => None
  end.

(** The message of Leaflet's error for a place with a [NaN] ordinate. *)
Definition invalidLatLng (numberToString : App.number -> string)
    (p : App.Place) : string :=
  "Invalid LatLng object: (" ++ numberToString (App.lat p) ++ ", "
  ++ numberToString (App.lng p) ++ ")".

(** ** Sample answers of the geocoder, and a map before a request *)

Module SampleRun.

Definition readings : list (string * Q) :=
  [ ("34.05", 34.05%Q); ("-118.24", (-118.24)%Q);
    ("33.94", 33.94%Q); ("-118.4", (-118.4)%Q);
    ("1e308", 1e308%Q) ].

(** [parseFloat] and the conversion back, on the strings of [readings]
    only. *)
Definition parseFloat (s : string) : App.number :=
  match find (fun r => (fst r =? s)%string) readings with
  | Some r => MapWithSaferRouting.Finite (snd r)
  | None => MapWithSaferRouting.NaN
  end.

Definition numberToString (n : App.number) : string :=
  match n with
  | MapWithSaferRouting.NaN => "NaN"
  | MapWithSaferRouting.Finite q =>
      match find (fun r => Qeq_bool (snd r) q) readings with
      | Some r => fst r
      | None => "?"
      end
  end.

(** A stand-in for [fitBounds]: it sets the view for two points whose
    ordinates are latitudes and longitudes, and throws otherwise. *)
Definition onEarth (p : Leaflet.LatLng) : bool :=
  Qle_bool (-90) (fst p) && Qle_bool (fst p) 90
  && Qle_bool (-180) (snd p) && Qle_bool (snd p) 180.

Definition fitBounds (a b : Leaflet.LatLng) : completion unit :=
  if onEarth a && onEarth b then Normal tt
  else Throw "Invalid LatLng object: (0, NaN)".

(** A hit far outside the range of latitudes. *)
Definition readingsFar : Nominatim.Answer :=
  Nominatim.Hits [ Nominatim.mkHit (Some "1e308") (Some "1e308") ].

Definition cityHall : Nominatim.Answer :=
  Nominatim.Hits [ Nominatim.mkHit (Some "34.05") (Some "-118.24") ].

Definition airport : Nominatim.Answer :=
  Nominatim.Hits [ Nominatim.mkHit (Some "33.94") (Some "-118.4");
                   Nominatim.mkHit (Some "34.05") (Some "-118.24") ].

Definition nowhere : Nominatim.Answer := Nominatim.Hits [].

(** A hit without latitude. *)
Definition broken : Nominatim.Answer :=
  Nominatim.Hits [ Nominatim.mkHit None (Some "-118.4") ].

(** A map that shows an earlier request. *)
Definition before : App.State :=
  App.mkState [outerRing [Sample.square 0 0]]
    [highlighted (Sample.scoredAs Sample.medium 1)]
    [Leaflet.mkMarker (1, 2)%Q "Origin";
     Leaflet.mkMarker (3, 4)%Q "Destination"]
    "Selected safest route (risk=1). Other routes had up to 1.".

End SampleRun.

(** * Properties *)

(** ** Time mode *)

(** C9: with the override [day] or [night] the effective mode is the
    override, whatever the hour; with [auto] it is [night] exactly for the
    hours [h >= 21] or [h <= 4], and [day] for every other hour. *)
Theorem effectiveMode_spec (h : Z) :
  effectiveMode "day" h = "day"
  /\ effectiveMode "night" h = "night"
  /\ (effectiveMode "auto" h = "night" <-> (h >= 21 \/ h <= 4)%Z)
  /\ (effectiveMode "auto" h = "day" <-> ~ (h >= 21 \/ h <= 4)%Z).
Proof.
  unfold effectiveMode, nowIsNight; cbn.
  repeat split; intros H;
    destruct (Z.geb_spec h 21), (Z.leb_spec h 4); cbn in *;
    try reflexivity; try discriminate; try lia.
Qed.

(** ** The placeholder route *)

(** C10: [calculateRoute] scores and ranks nothing: whatever the time mode,
    the detour strength and the loaded hotspots, it returns the empty list
    when the origin or the destination is unset, and otherwise the two
    points [origin; destination]. *)
Theorem calculateRoute_straight_line
    (o d : option MapWithSaferRouting.LatLng)
    (a b : MapWithSaferRouting.LatLng) (tm ds : string)
    (dh nh : list MapWithSaferRouting.LatLng) :
  MapWithSaferRouting.calculateRoute
    (MapWithSaferRouting.mkState None d tm ds dh nh) = []
  /\ MapWithSaferRouting.calculateRoute
       (MapWithSaferRouting.mkState o None tm ds dh nh) = []
  /\ MapWithSaferRouting.calculateRoute
       (MapWithSaferRouting.mkState (Some a) (Some b) tm ds dh nh) = [a; b].
Proof.
  unfold MapWithSaferRouting.calculateRoute; cbn.
  destruct o; auto.
Qed.

(** ** No candidate route *)

Lemma string_or_not_empty (s : option string) (fallback : string) :
  fallback <> EmptyString -> string_or s fallback <> EmptyString.
Proof.
  intros Hf. destruct s as [[|c m]|]; cbn; auto; discriminate.
Qed.

Lemma string_or_Some (m : string) (fallback : string) :
  m <> EmptyString -> string_or (Some m) fallback = m.
Proof.
  destruct m; cbn; congruence.
Qed.

(** C3: when the routing answer holds no route (an empty list, or none at
    all), selection throws, whatever the answer's code and whatever the
    hotspot collection, and no selection is produced: the handler ends with
    the error status.  Ranking and picking from no scored route throws as
    well. *)
Theorem selectRoute_empty_candidates
    (booleanIntersects : LineString -> Polygon -> completion bool)
    (hotspotsGeo : option FeatureCollection)
    (code : string) (message : option string) (rs : option (list Osrm.Route)) :
  routesOf (Osrm.mkResponse code message rs) = [] ->
  selectRoute booleanIntersects hotspotsGeo (Osrm.mkResponse code message rs)
  = Throw (string_or message "Routing failed")
  /\ handleGetRoute booleanIntersects hotspotsGeo
       (Osrm.mkResponse code message rs)
     = "Error: " ++ string_or message "Routing failed"
  /\ exists m, choose [] = Throw m.
Proof.
  intros Hempty.
  assert (Hs : selectRoute booleanIntersects hotspotsGeo
                 (Osrm.mkResponse code message rs)
               = Throw (string_or message "Routing failed")).
  { unfold selectRoute, fetchRoutes, hasRoutes, routesOf in *; cbn in *.
    destruct rs as [[|r rs]|]; try discriminate;
      cbn; rewrite orb_true_r; reflexivity. }
  split; [exact Hs|]. split; [|cbn; eauto].
  unfold handleGetRoute. rewrite Hs.
  rewrite string_or_Some; [reflexivity|].
  apply string_or_not_empty. discriminate.
Qed.

Lemma selectRoute_empty_candidates_witness :
  selectRoute Sample.booleanIntersects Sample.hotspots
    (Osrm.mkResponse "Ok" None (Some []))
  = Throw "Routing failed"
  /\ handleGetRoute Sample.booleanIntersects Sample.hotspots
       (Osrm.mkResponse "Ok" None (Some []))
     = "Error: Routing failed"
  /\ exists m, choose [] = Throw m.
Proof.
  apply (selectRoute_empty_candidates Sample.booleanIntersects Sample.hotspots
           "Ok" None (Some [])).
  reflexivity.
Defined.

(** ** Risk score *)

Lemma ring_check_ok (ring : list Position) :
  ring_ok ring = true -> ring_check ring = Normal tt.
Proof.
  unfold ring_ok, ring_check. intros H.
  apply andb_true_iff in H. destruct H as [Hlen Hclosed].
  apply Nat.leb_le in Hlen.
  destruct (Nat.ltb_spec (length ring) 4) as [Hlt|_]; [lia|].
  rewrite Hclosed. reflexivity.
Qed.

Lemma ring_check_throws (ring : list Position) :
  ring_ok ring = false -> exists m, ring_check ring = Throw m.
Proof.
  unfold ring_ok, ring_check. intros H.
  destruct (Nat.ltb_spec (length ring) 4) as [Hlt|Hge]; [eauto|].
  apply Nat.leb_le in Hge. rewrite Hge in H. cbn in H.
  rewrite H. eauto.
Qed.

Lemma turf_polygon_ok (coords : list (list Position)) :
  rings_ok coords = true -> turf_polygon coords = Normal coords.
Proof.
  unfold turf_polygon, rings_ok.
  assert (H : forallb ring_ok coords = true -> rings_check coords = Normal tt).
  { induction coords as [|ring rest IH]; cbn; [reflexivity|].
    intros H. apply andb_true_iff in H. destruct H as [H1 H2].
    rewrite (ring_check_ok _ H1). cbn. auto. }
  intros Hok. rewrite (H Hok). reflexivity.
Qed.

Lemma rings_check_throws (coords : list (list Position)) :
  rings_ok coords = false -> exists m, rings_check coords = Throw m.
Proof.
  unfold rings_ok.
  induction coords as [|ring rest IH]; cbn; [discriminate|].
  intros H. destruct (ring_ok ring) eqn:Hring; cbn in H.
  - rewrite (ring_check_ok _ Hring). cbn. auto.
  - destruct (ring_check_throws _ Hring) as [m Hm]. rewrite Hm. cbn. eauto.
Qed.

Lemma turf_polygon_throws (coords : list (list Position)) :
  rings_ok coords = false -> exists m, turf_polygon coords = Throw m.
Proof.
  intros H. destruct (rings_check_throws _ H) as [m Hm].
  unfold turf_polygon. rewrite Hm. cbn. eauto.
Qed.

Section RiskScoreFacts.

Variable booleanIntersects : LineString -> Polygon -> completion bool.
Variable l : LineString.

Lemma returns_Normal (poly : Polygon) :
  returns booleanIntersects l poly = true ->
  booleanIntersects l poly = Normal (returnsTrue booleanIntersects l poly).
Proof.
  unfold returns, returnsTrue.
  destruct (booleanIntersects l poly); [reflexivity|discriminate].
Qed.

Lemma returns_Throw (poly : Polygon) :
  returns booleanIntersects l poly = false ->
  exists m, booleanIntersects l poly = Throw m.
Proof.
  unfold returns.
  destruct (booleanIntersects l poly); [discriminate|eauto].
Qed.

Lemma riskScore_loop_normal (fs : list Feature) (score : nat) :
  forallb rings_ok (polygonsAmong fs) = true ->
  forallb (returns booleanIntersects l) (polygonsAmong fs) = true ->
  riskScore_loop booleanIntersects l fs score
  = Normal (score + length (filter (returnsTrue booleanIntersects l)
                              (polygonsAmong fs))).
Proof.
  unfold polygonsAmong.
  revert score. induction fs as [|f rest IH]; intros score Hs Hr; cbn.
  - f_equal. lia.
  - cbn in Hs, Hr. destruct (isPolygon f); cbn in *.
    + apply andb_true_iff in Hs. destruct Hs as [Hf Hrest].
      apply andb_true_iff in Hr. destruct Hr as [Hp Hrets].
      rewrite (turf_polygon_ok _ Hf). cbn.
      rewrite (returns_Normal _ Hp). cbn.
      destruct (returnsTrue booleanIntersects l (featureCoordinates f)); cbn.
      * rewrite (IH _ Hrest Hrets). f_equal. lia.
      * apply IH; assumption.
    + apply IH; assumption.
Qed.

Lemma riskScore_loop_throws (fs : list Feature) (score : nat) :
  forallb rings_ok (polygonsAmong fs)
  && forallb (returns booleanIntersects l) (polygonsAmong fs) = false ->
  exists m, riskScore_loop booleanIntersects l fs score = Throw m.
Proof.
  unfold polygonsAmong.
  revert score. induction fs as [|f rest IH]; intros score Hs; cbn.
  - discriminate.
  - cbn in Hs. destruct (isPolygon f); cbn in *; [|apply IH, Hs].
    destruct (rings_ok (featureCoordinates f)) eqn:Hf; cbn in Hs.
    + rewrite (turf_polygon_ok _ Hf). cbn.
      destruct (returns booleanIntersects l (featureCoordinates f)) eqn:Hp;
        cbn in Hs.
      * rewrite (returns_Normal _ Hp). cbn.
        destruct (returnsTrue booleanIntersects l (featureCoordinates f));
          apply IH, Hs.
      * destruct (returns_Throw _ Hp) as [m Hm]. rewrite Hm. cbn. eauto.
    + destruct (turf_polygon_throws _ Hf) as [m Hm]. rewrite Hm. cbn. eauto.
Qed.

Lemma riskScore_loop_polygons_only (fs : list Feature) (score : nat) :
  riskScore_loop booleanIntersects l (filter isPolygon fs) score
  = riskScore_loop booleanIntersects l fs score.
Proof.
  revert score. induction fs as [|f rest IH]; intros score; cbn.
  - reflexivity.
  - destruct (isPolygon f) eqn:Hf; cbn.
    + rewrite Hf. cbn.
      destruct (turf_polygon (featureCoordinates f)) as [poly|m]; cbn;
        [|reflexivity].
      destruct (booleanIntersects l poly) as [[|]|m]; cbn;
        [apply IH|apply IH|reflexivity].
    + apply IH.
Qed.

Lemma noHotspots_features (hotspotFC : option FeatureCollection) :
  noHotspots hotspotFC = true -> hotspotFeatures hotspotFC = [].
Proof.
  destruct hotspotFC as [[[fs|]]|]; cbn; try reflexivity.
  destruct fs; [reflexivity|discriminate].
Qed.

Lemma riskScore_is_loop (hotspotFC : option FeatureCollection) :
  riskScore booleanIntersects l hotspotFC
  = riskScore_loop booleanIntersects l (hotspotFeatures hotspotFC) 0.
Proof.
  unfold riskScore. destruct (noHotspots hotspotFC) eqn:Hn; [|reflexivity].
  rewrite (noHotspots_features _ Hn). reflexivity.
Qed.

Lemma riskScore_normal (hotspotFC : option FeatureCollection) :
  closedRings hotspotFC = true ->
  intersectsReturns booleanIntersects l hotspotFC = true ->
  riskScore booleanIntersects l hotspotFC
  = Normal (intersectionCount booleanIntersects l hotspotFC).
Proof.
  intros H Hr. rewrite riskScore_is_loop.
  rewrite riskScore_loop_normal by assumption. reflexivity.
Qed.

Lemma riskScore_throws (hotspotFC : option FeatureCollection) :
  closedRings hotspotFC
  && intersectsReturns booleanIntersects l hotspotFC = false ->
  exists m, riskScore booleanIntersects l hotspotFC = Throw m.
Proof.
  intros H. rewrite riskScore_is_loop.
  apply riskScore_loop_throws. exact H.
Qed.

Lemma riskScore_throws_open (hotspotFC : option FeatureCollection) :
  closedRings hotspotFC = false ->
  exists m, riskScore booleanIntersects l hotspotFC = Throw m.
Proof.
  intros H. apply riskScore_throws. rewrite H. reflexivity.
Qed.

End RiskScoreFacts.

Lemma filter_isPolygon_twice (fs : list Feature) :
  filter isPolygon (filter isPolygon fs) = filter isPolygon fs.
Proof.
  induction fs as [|f fs IH]; cbn; [reflexivity|].
  destruct (isPolygon f) eqn:Hf; cbn; rewrite ?Hf, IH; reflexivity.
Qed.

Lemma polygons_polygonsOnly (hotspotFC : option FeatureCollection) :
  polygons (polygonsOnly hotspotFC) = polygons hotspotFC.
Proof.
  unfold polygons, polygonsAmong, polygonsOnly; cbn.
  rewrite filter_isPolygon_twice. reflexivity.
Qed.

(** Scoring the first route of an answer decides: when it throws, so does
    selection, and the handler ends with the error status. *)
Lemma selectRoute_throws_with_first
    (booleanIntersects : LineString -> Polygon -> completion bool)
    (hotspotsGeo : option FeatureCollection) (js : Osrm.Response)
    (r : Osrm.Route) (rest : list Osrm.Route) (m : string) :
  Osrm.code js = "Ok" -> routesOf js = r :: rest ->
  scoreRoute booleanIntersects hotspotsGeo r = Throw m ->
  selectRoute booleanIntersects hotspotsGeo js = Throw m
  /\ handleGetRoute booleanIntersects hotspotsGeo js
     = "Error: " ++ string_or (Some m) "Error".
Proof.
  intros Hcode Hrs Hr.
  assert (Hsel : selectRoute booleanIntersects hotspotsGeo js = Throw m).
  { unfold selectRoute, fetchRoutes, hasRoutes. rewrite Hcode.
    unfold routesOf in *. destruct (Osrm.routes js) as [rs|];
      [|discriminate]. subst rs. cbn. rewrite Hr. reflexivity. }
  split; [exact Hsel|]. unfold handleGetRoute. rewrite Hsel. reflexivity.
Qed.

(** C2, as the code has it: over a collection with a polygon feature whose
    ring has three positions no score is returned, while the intersection
    predicate returns true for two polygons of the collection. *)
Lemma riskScore_short_ring_throws :
  riskScore Sample.booleanIntersects (Osrm.coordinates Sample.risky)
    Sample.tooShort
  = Throw "Each LinearRing of a Polygon must have 4 or more Positions."
  /\ length (filter (returnsTrue Sample.booleanIntersects
                       (Osrm.coordinates Sample.risky))
               (polygons Sample.tooShort))
     = 2.
Proof. split; reflexivity. Qed.

(** C2, amended: for a route line and a hotspot collection in which every
    ring of every polygon feature is closed and has at least four positions,
    and for each of whose polygons the intersection predicate returns, the
    scorer returns the number of polygons of the collection for which the
    predicate returns true, each polygon counted once. *)
Theorem riskScore_counts_intersections
    (booleanIntersects : LineString -> Polygon -> completion bool)
    (routeGeoJsonLine : LineString) (hotspotFC : option FeatureCollection) :
  closedRings hotspotFC = true ->
  intersectsReturns booleanIntersects routeGeoJsonLine hotspotFC = true ->
  riskScore booleanIntersects routeGeoJsonLine hotspotFC
  = Normal (length (filter (returnsTrue booleanIntersects routeGeoJsonLine)
                      (polygons hotspotFC))).
Proof.
  intros H Hr. apply riskScore_normal; assumption.
Qed.

Lemma riskScore_counts_intersections_witness :
  riskScore Sample.booleanIntersects (Osrm.coordinates Sample.risky)
    Sample.hotspots
  = Normal 2.
Proof.
  apply (riskScore_counts_intersections Sample.booleanIntersects
           (Osrm.coordinates Sample.risky) Sample.hotspots);
    reflexivity.
Defined.

(** C5, as the code has it: scoring raises on a polygon feature whose ring
    is not closed, where the count over the well-formed polygons is 1. *)
Lemma riskScore_malformed_ring_throws :
  riskScore Sample.booleanIntersects (Osrm.coordinates Sample.risky)
    Sample.malformed
  = Throw "First and last Position are not equivalent."
  /\ riskScore Sample.booleanIntersects (Osrm.coordinates Sample.risky)
       Sample.wellFormedPart
     = Normal 1.
Proof. split; reflexivity. Qed.

(** C5, amended: the features that are skipped are those whose geometry is
    missing or is not of type [Polygon]: they never change the outcome.
    When every ring of every polygon feature is closed and has at least four
    positions and the intersection predicate returns for every polygon
    feature, scoring returns the intersection count over the polygon
    features.  When some ring of a polygon feature is not closed or has
    fewer than four positions, scoring throws, and for an answer with code
    [Ok] that has routes the handler ends with the error status. *)
Theorem riskScore_skips_non_polygons
    (booleanIntersects : LineString -> Polygon -> completion bool)
    (routeGeoJsonLine : LineString) (hotspotFC : option FeatureCollection) :
  riskScore booleanIntersects routeGeoJsonLine hotspotFC
  = riskScore booleanIntersects routeGeoJsonLine (polygonsOnly hotspotFC)
  /\ (closedRings hotspotFC = true ->
      intersectsReturns booleanIntersects routeGeoJsonLine hotspotFC = true ->
      riskScore booleanIntersects routeGeoJsonLine hotspotFC
      = Normal (intersectionCount booleanIntersects routeGeoJsonLine
                  (polygonsOnly hotspotFC)))
  /\ (closedRings hotspotFC = false ->
      (exists m,
         riskScore booleanIntersects routeGeoJsonLine hotspotFC = Throw m)
      /\ forall js,
           Osrm.code js = "Ok" -> routesOf js <> [] ->
           exists m,
             selectRoute booleanIntersects hotspotFC js = Throw m
             /\ handleGetRoute booleanIntersects hotspotFC js
                = "Error: " ++ string_or (Some m) "Error").
Proof.
  assert (Hskip :
    riskScore booleanIntersects routeGeoJsonLine hotspotFC
    = riskScore booleanIntersects routeGeoJsonLine (polygonsOnly hotspotFC)).
  { rewrite !riskScore_is_loop. unfold polygonsOnly; cbn.
    symmetry. apply riskScore_loop_polygons_only. }
  split; [exact Hskip|]. split; [|split].
  - intros H Hr. rewrite Hskip. apply riskScore_normal.
    + unfold closedRings. rewrite polygons_polygonsOnly. exact H.
    + unfold intersectsReturns. rewrite polygons_polygonsOnly. exact Hr.
  - apply riskScore_throws_open, H.
  - intros js Hcode Hne.
    destruct (routesOf js) as [|r rest] eqn:Hrs; [contradiction|].
    assert (Hr : exists m,
               scoreRoute booleanIntersects hotspotFC r = Throw m).
    { unfold scoreRoute.
      destruct (turf_lineString (Osrm.coordinates r)) as [ls|m]; cbn;
        [|eauto].
      destruct (riskScore_throws_open booleanIntersects ls _ H) as [m Hm].
      rewrite Hm. cbn. eauto. }
    destruct Hr as [m Hm]. exists m.
    eapply selectRoute_throws_with_first; eassumption.
Qed.

Lemma riskScore_skips_non_polygons_witness :
  riskScore Sample.booleanIntersects (Osrm.coordinates Sample.risky)
    Sample.hotspots
  = Normal 2
  /\ (exists m,
        riskScore Sample.booleanIntersects (Osrm.coordinates Sample.risky)
          Sample.malformed = Throw m)
  /\ exists m,
       selectRoute Sample.booleanIntersects Sample.malformed Sample.answer
       = Throw m
       /\ handleGetRoute Sample.booleanIntersects Sample.malformed
            Sample.answer
          = "Error: " ++ string_or (Some m) "Error".
Proof.
  split; [|split].
  - apply (proj1 (proj2 (riskScore_skips_non_polygons
                           Sample.booleanIntersects
                           (Osrm.coordinates Sample.risky) Sample.hotspots)));
      reflexivity.
  - apply (proj2 (proj2 (riskScore_skips_non_polygons
                           Sample.booleanIntersects
                           (Osrm.coordinates Sample.risky)
                           Sample.malformed))).
    reflexivity.
  - apply (proj2 (proj2 (riskScore_skips_non_polygons
                           Sample.booleanIntersects
                           (Osrm.coordinates Sample.risky)
                           Sample.malformed)));
      [reflexivity|reflexivity|discriminate].
Defined.

(** ** [Array_sort] over a comparator that induces a total preorder *)

Section ArraySortFacts.

Context {A : Type}.
Variable comparefn : A -> A -> Q.
Variable le : A -> A -> Prop.
Variable eqv : A -> A -> bool.

Hypothesis le_spec :
  forall x y, Qle_bool (comparefn x y) 0 = true <-> le x y.
Hypothesis le_total : forall x y, le x y \/ le y x.
Hypothesis le_trans : forall x y z, le x y -> le y z -> le x z.
Hypothesis eqv_le :
  forall a x y, eqv a x = true -> eqv a y = true -> le x y.
Hypothesis eqv_refl : forall x, eqv x x = true.
Hypothesis le_antisym :
  forall x y, le x y -> le y x -> eqv x y = true.

Lemma insert_perm (x : A) (s : list A) :
  Permutation (x :: s) (insert comparefn x s).
Proof.
  induction s as [|y rest IH]; cbn; [reflexivity|].
  destruct (Qle_bool (comparefn x y) 0); [reflexivity|].
  rewrite perm_swap. apply perm_skip, IH.
Qed.

Lemma Array_sort_perm (xs : list A) :
  Permutation xs (Array_sort comparefn xs).
Proof.
  induction xs as [|x rest IH]; cbn; [constructor|].
  rewrite <- insert_perm. apply perm_skip, IH.
Qed.

Lemma insert_sorted (x : A) (s : list A) :
  StronglySorted le s -> StronglySorted le (insert comparefn x s).
Proof.
  induction 1 as [|y rest Hs IH Hy]; cbn.
  - repeat constructor.
  - destruct (Qle_bool (comparefn x y) 0) eqn:Hxy.
    + apply le_spec in Hxy. constructor.
      * constructor; assumption.
      * constructor; [exact Hxy|].
        eapply Forall_impl; [|exact Hy]. intros z Hz. eauto.
    + assert (Hyx : le y x).
      { destruct (le_total x y) as [H|H]; [|exact H].
        apply le_spec in H. congruence. }
      constructor; [exact IH|].
      eapply Permutation_Forall; [apply insert_perm|].
      constructor; assumption.
Qed.

Lemma Array_sort_sorted (xs : list A) :
  StronglySorted le (Array_sort comparefn xs).
Proof.
  induction xs as [|x rest IH]; cbn; [constructor|].
  apply insert_sorted, IH.
Qed.

(** An element never moves past one it is tied with. *)
Lemma filter_insert (a x : A) (s : list A) :
  filter (eqv a) (insert comparefn x s)
  = if eqv a x then x :: filter (eqv a) s else filter (eqv a) s.
Proof.
  induction s as [|y rest IH]; cbn.
  - destruct (eqv a x); reflexivity.
  - destruct (Qle_bool (comparefn x y) 0) eqn:Hxy; cbn.
    + destruct (eqv a x); reflexivity.
    + rewrite IH.
      destruct (eqv a x) eqn:Hx, (eqv a y) eqn:Hy; try reflexivity.
      exfalso. apply (eqv_le a x y Hx) in Hy.
      apply le_spec in Hy. congruence.
Qed.

Lemma Array_sort_stable (a : A) (xs : list A) :
  filter (eqv a) (Array_sort comparefn xs) = filter (eqv a) xs.
Proof.
  induction xs as [|x rest IH]; cbn; [reflexivity|].
  rewrite filter_insert, IH. reflexivity.
Qed.

(** Two sorted arrangements of the same elements that keep tied elements in
    the same order are the same list. *)
Lemma stable_sorted_unique (s1 s2 : list A) :
  StronglySorted le s1 -> StronglySorted le s2 ->
  Permutation s1 s2 ->
  (forall a, filter (eqv a) s1 = filter (eqv a) s2) ->
  s1 = s2.
Proof.
  intros H1. revert s2.
  induction H1 as [|x t1 Hs1 IH Hx]; intros s2 H2 Hp Hf.
  - apply Permutation_nil in Hp. congruence.
  - destruct H2 as [|y t2 Hs2 Hy].
    + apply Permutation_sym, Permutation_nil in Hp. discriminate.
    + assert (Hxy : le x y).
      { assert (Hin : In y (x :: t1))
          by (eapply Permutation_in; [symmetry; exact Hp|left; reflexivity]).
        destruct Hin as [->|Hin].
        - destruct (le_total y y); assumption.
        - rewrite Forall_forall in Hx. auto. }
      assert (Hyx : le y x).
      { assert (Hin : In x (y :: t2))
          by (eapply Permutation_in; [exact Hp|left; reflexivity]).
        destruct Hin as [->|Hin].
        - destruct (le_total x x); assumption.
        - rewrite Forall_forall in Hy. auto. }
      pose proof (Hf x) as Hfx. cbn in Hfx.
      rewrite eqv_refl, (le_antisym x y Hxy Hyx) in Hfx.
      injection Hfx as -> _.
      f_equal. apply IH.
      * exact Hs2.
      * eapply Permutation_cons_inv. exact Hp.
      * intros a. specialize (Hf a). cbn in Hf.
        destruct (eqv a y); [injection Hf; auto|exact Hf].
Qed.

(** The stable sort of a list is determined by the comparator: whichever
    way an engine computes it, the result is [Array_sort]. *)
Lemma Array_sort_unique (xs sorted : list A) :
  Permutation xs sorted ->
  StronglySorted le sorted ->
  (forall a, filter (eqv a) sorted = filter (eqv a) xs) ->
  sorted = Array_sort comparefn xs.
Proof.
  intros Hp Hs Hf. apply stable_sorted_unique.
  - exact Hs.
  - apply Array_sort_sorted.
  - rewrite <- Hp. apply Array_sort_perm.
  - intros a. rewrite Hf, Array_sort_stable. reflexivity.
Qed.

End ArraySortFacts.

(** ** The comparator of [handleGetRoute] *)

Lemma compareFn_le (a b : Scored) :
  Qle_bool (compareFn a b) 0 = true <-> precedes a b.
Proof.
  unfold compareFn, precedes. rewrite Qle_bool_iff.
  destruct (Nat.eqb_spec (risk a) (risk b)) as [Heq|Hne]; cbn.
  - split.
    + intros H. right. split; [exact Heq|lra].
    + intros [H|[_ H]]; [lia|lra].
  - rewrite <- (Zle_Qle _ 0). split.
    + intros H. left. lia.
    + intros [H|[H _]]; [lia|contradiction].
Qed.

Lemma precedes_total (a b : Scored) : precedes a b \/ precedes b a.
Proof.
  unfold precedes.
  destruct (lt_eq_lt_dec (risk a) (risk b)) as [[H|H]|H]; auto.
  destruct (Qlt_le_dec (distance a) (distance b)) as [Hd|Hd].
  - right. right. split; [auto|lra].
  - left. right. split; [auto|lra].
Qed.

Lemma precedes_trans (a b c : Scored) :
  precedes a b -> precedes b c -> precedes a c.
Proof.
  unfold precedes. intros [H1|[H1 D1]] [H2|[H2 D2]].
  - left; lia.
  - left; lia.
  - left; lia.
  - right. split; [lia|lra].
Qed.

Lemma tied_spec (a b : Scored) :
  tied a b = true <-> risk a = risk b /\ (distance a == distance b)%Q.
Proof.
  unfold tied. rewrite andb_true_iff, Nat.eqb_eq, Qeq_bool_iff. reflexivity.
Qed.

Lemma tied_precedes (a x y : Scored) :
  tied a x = true -> tied a y = true -> precedes x y.
Proof.
  rewrite !tied_spec. intros [R1 D1] [R2 D2].
  right. split; [congruence|]. rewrite <- D1, <- D2. apply Qle_refl.
Qed.

Lemma tied_refl (a : Scored) : tied a a = true.
Proof. apply tied_spec. split; reflexivity. Qed.

Lemma precedes_antisym (a b : Scored) :
  precedes a b -> precedes b a -> tied a b = true.
Proof.
  unfold precedes. rewrite tied_spec.
  intros [H1|[H1 D1]] [H2|[H2 D2]]; try lia.
  split; [exact H1|]. apply Qle_antisym; assumption.
Qed.

Lemma rank_sorted (scored : list Scored) :
  StronglySorted precedes (rank scored).
Proof.
  apply (Array_sort_sorted compareFn precedes
           compareFn_le precedes_total precedes_trans).
Qed.

Lemma rank_perm (scored : list Scored) : Permutation scored (rank scored).
Proof. apply Array_sort_perm. Qed.

Lemma rank_stable (a : Scored) (scored : list Scored) :
  filter (tied a) (rank scored) = filter (tied a) scored.
Proof.
  apply (Array_sort_stable compareFn precedes tied compareFn_le tied_precedes).
Qed.

(** Any stable sort by [compareFn] computes [rank]. *)
Lemma rank_unique (scored sorted : list Scored) :
  Permutation scored sorted ->
  StronglySorted precedes sorted ->
  (forall a, filter (tied a) sorted = filter (tied a) scored) ->
  sorted = rank scored.
Proof.
  apply (Array_sort_unique compareFn precedes tied compareFn_le
           precedes_total precedes_trans tied_precedes tied_refl
           precedes_antisym).
Qed.

Lemma precedes_refl (a : Scored) : precedes a a.
Proof. destruct (precedes_total a a); assumption. Qed.

(** The head of the ranked list precedes every element of the input. *)
Lemma rank_head_least (scored : list Scored) (b : Scored)
    (others : list Scored) :
  rank scored = b :: others -> Forall (precedes b) scored.
Proof.
  intros Hr. pose proof (rank_sorted scored) as Hs. rewrite Hr in Hs.
  apply StronglySorted_inv in Hs. destruct Hs as [_ Hall].
  apply (Permutation_Forall (Permutation_sym (rank_perm scored))).
  rewrite Hr. constructor; [apply precedes_refl|exact Hall].
Qed.

(** ** Ranking and the winner *)

(** C1: the ranked list is ordered by ascending risk and, on equal risk,
    by descending distance; the winner is its first element, and so precedes
    every scored route in that order.  Only the ranking of no route at all
    has no winner. *)
Theorem rank_orders_and_winner_is_first (scored : list Scored) :
  StronglySorted precedes (rank scored)
  /\ match choose scored with
     | Normal sel =>
         allScored sel = rank scored
         /\ hd_error (rank scored) = Some (best sel)
         /\ Forall (precedes (best sel)) scored
     | Throw _ => scored = []
     end.
Proof.
  split; [apply rank_sorted|].
  unfold choose. destruct (rank scored) as [|b others] eqn:Hr.
  - pose proof (rank_perm scored) as Hp. rewrite Hr in Hp.
    apply Permutation_sym, Permutation_nil in Hp. exact Hp.
  - cbn. repeat split. eapply rank_head_least; eauto.
Qed.

(** C7: ranking is stable: for every scored route [a], the routes tied with
    [a] (same risk, same distance) appear in the ranked list in the order in
    which they appear in the input. *)
Theorem rank_is_stable (scored : list Scored) (a : Scored) :
  filter (tied a) (rank scored) = filter (tied a) scored.
Proof.
  apply rank_stable.
Qed.

(** ** The pipeline: score every route, rank, pick *)

Section PipelineFacts.

Variable booleanIntersects : LineString -> Polygon -> completion bool.
Variable hotspotsGeo : option FeatureCollection.

Lemma scoreRoute_inv (r : Osrm.Route) (s : Scored) :
  scoreRoute booleanIntersects hotspotsGeo r = Normal s ->
  route s = r /\ scoredFrom booleanIntersects hotspotsGeo s.
Proof.
  unfold scoreRoute, turf_lineString, scoredFrom.
  destruct (length (Osrm.coordinates r) <? 2); cbn; [discriminate|].
  destruct (riskScore booleanIntersects (Osrm.coordinates r) hotspotsGeo)
    as [k|m] eqn:Hk; cbn; [|discriminate].
  intros [= <-]. cbn. auto.
Qed.

Lemma Array_map_scoreRoute_inv (rs : list Osrm.Route) (scored : list Scored) :
  Array_map (scoreRoute booleanIntersects hotspotsGeo) rs = Normal scored ->
  map route scored = rs
  /\ Forall (scoredFrom booleanIntersects hotspotsGeo) scored.
Proof.
  revert scored. induction rs as [|r rest IH]; intros scored; cbn.
  - intros [= <-]. split; constructor.
  - destruct (scoreRoute booleanIntersects hotspotsGeo r) as [s|m] eqn:Hs;
      cbn; [|discriminate].
    destruct (Array_map (scoreRoute booleanIntersects hotspotsGeo) rest)
      as [ss|m] eqn:Hss; cbn; [|discriminate].
    intros [= <-]. destruct (IH ss eq_refl) as [Hm Hf].
    apply scoreRoute_inv in Hs. destruct Hs as [Hr Hs].
    cbn. split; [congruence|constructor; assumption].
Qed.

(** Scoring returns for route lines of at least two positions over a
    collection with closed rings. *)
Lemma scoreRoute_returns (r : Osrm.Route) :
  2 <= length (Osrm.coordinates r) ->
  closedRings hotspotsGeo = true ->
  intersectsReturns booleanIntersects (Osrm.coordinates r) hotspotsGeo
  = true ->
  scoreRoute booleanIntersects hotspotsGeo r
  = Normal {| route := r; line := Osrm.coordinates r;
              risk := intersectionCount booleanIntersects
                        (Osrm.coordinates r) hotspotsGeo;
              distance := Osrm.distance r; duration := Osrm.duration r |}.
Proof.
  intros Hlen Hok Hret. unfold scoreRoute, turf_lineString.
  destruct (Nat.ltb_spec (length (Osrm.coordinates r)) 2); [lia|]. cbn.
  rewrite riskScore_normal by assumption. reflexivity.
Qed.

Lemma Array_map_scoreRoute_returns (rs : list Osrm.Route) :
  Forall (fun r => 2 <= length (Osrm.coordinates r)) rs ->
  closedRings hotspotsGeo = true ->
  Forall (fun r => intersectsReturns booleanIntersects
                     (Osrm.coordinates r) hotspotsGeo = true) rs ->
  exists scored,
    Array_map (scoreRoute booleanIntersects hotspotsGeo) rs = Normal scored
    /\ Forall (fun s => risk s = intersectionCount booleanIntersects
                                   (line s) hotspotsGeo) scored.
Proof.
  intros Hrs Hok Hret. induction Hrs as [|r rest Hr Hrest IH]; cbn.
  - eexists. split; [reflexivity|constructor].
  - destruct (IH (Forall_inv_tail Hret)) as [ss [Hss Hall]].
    rewrite (scoreRoute_returns r Hr Hok (Forall_inv Hret)), Hss. cbn.
    eexists. split; [reflexivity|].
    constructor; [reflexivity|exact Hall].
Qed.

Lemma fetchRoutes_inv (js : Osrm.Response) (rs : list Osrm.Route) :
  fetchRoutes js = Normal rs ->
  Osrm.code js = "Ok" /\ rs = routesOf js /\ rs <> [].
Proof.
  unfold fetchRoutes, hasRoutes, routesOf.
  destruct (String.eqb_spec (Osrm.code js) "Ok") as [Hc|Hc]; cbn;
    [|discriminate].
  destruct (Osrm.routes js) as [[|r rest]|]; cbn; try discriminate.
  intros [= <-]. repeat split; auto. discriminate.
Qed.

Lemma fetchRoutes_returns (js : Osrm.Response) :
  Osrm.code js = "Ok" -> routesOf js <> [] ->
  fetchRoutes js = Normal (routesOf js).
Proof.
  unfold fetchRoutes, hasRoutes, routesOf. intros -> Hne.
  destruct (Osrm.routes js) as [[|r rest]|]; cbn; congruence.
Qed.

Lemma choose_inv (scored : list Scored) (sel : Selection) :
  choose scored = Normal sel ->
  allScored sel = rank scored
  /\ hd_error (rank scored) = Some (best sel)
  /\ status sel
     = if risk (best sel) =? 0 then AvoidsAll
       else Safest (risk (best sel))
                   (Math_max (risk (best sel))
                             (map risk (tl (rank scored)))).
Proof.
  unfold choose. destruct (rank scored) as [|b others]; [discriminate|].
  intros [= <-]. cbn. auto.
Qed.

Lemma choose_returns (scored : list Scored) :
  scored <> [] -> exists sel, choose scored = Normal sel.
Proof.
  intros Hne. unfold choose.
  destruct (rank scored) as [|b others] eqn:Hr; [|eauto].
  pose proof (rank_perm scored) as Hp. rewrite Hr in Hp.
  apply Permutation_sym, Permutation_nil in Hp. contradiction.
Qed.

Lemma selectRoute_inv (js : Osrm.Response) (sel : Selection) :
  selectRoute booleanIntersects hotspotsGeo js = Normal sel ->
  exists scored,
    fetchRoutes js = Normal (routesOf js)
    /\ Array_map (scoreRoute booleanIntersects hotspotsGeo) (routesOf js)
       = Normal scored
    /\ choose scored = Normal sel.
Proof.
  unfold selectRoute.
  destruct (fetchRoutes js) as [rs|m] eqn:Hf; cbn; [|discriminate].
  destruct (fetchRoutes_inv _ _ Hf) as [_ [-> _]].
  destruct (Array_map _ (routesOf js)) as [scored|m] eqn:Hs; cbn;
    [|discriminate].
  intros Hc. exists scored. auto.
Qed.

(** The pipeline returns a selection for a non-empty answer whose route
    lines have at least two positions, over a collection with closed
    rings. *)
Lemma selectRoute_returns (js : Osrm.Response) :
  Osrm.code js = "Ok" -> routesOf js <> [] ->
  Forall (fun r => 2 <= length (Osrm.coordinates r)) (routesOf js) ->
  closedRings hotspotsGeo = true ->
  Forall (fun r => intersectsReturns booleanIntersects
                     (Osrm.coordinates r) hotspotsGeo = true)
    (routesOf js) ->
  exists scored sel,
    Array_map (scoreRoute booleanIntersects hotspotsGeo) (routesOf js)
    = Normal scored
    /\ Forall (fun s => risk s = intersectionCount booleanIntersects
                                   (line s) hotspotsGeo) scored
    /\ selectRoute booleanIntersects hotspotsGeo js = Normal sel.
Proof.
  intros Hc Hne Hlen Hok Hret.
  destruct (Array_map_scoreRoute_returns _ Hlen Hok Hret)
    as [scored [Hs Hall]].
  assert (Hsne : scored <> []).
  { apply Array_map_scoreRoute_inv in Hs. destruct Hs as [Hm _].
    intros ->. cbn in Hm. auto. }
  destruct (choose_returns _ Hsne) as [sel Hsel].
  exists scored, sel. repeat split; auto.
  unfold selectRoute.
  rewrite (fetchRoutes_returns _ Hc Hne). cbn.
  rewrite Hs. cbn. exact Hsel.
Qed.

End PipelineFacts.

(** ** The ranked list holds every candidate once *)

(** C6: when selection returns, the ranked list [allScored] is a
    permutation of the scored routes, which are the candidates in the order
    received, one scored route per candidate: no candidate is dropped,
    duplicated or filtered out, and the lengths agree. *)
Theorem allScored_is_permutation
    (booleanIntersects : LineString -> Polygon -> completion bool)
    (hotspotsGeo : option FeatureCollection)
    (js : Osrm.Response) (sel : Selection) :
  selectRoute booleanIntersects hotspotsGeo js = Normal sel ->
  exists scored,
    Array_map (scoreRoute booleanIntersects hotspotsGeo) (routesOf js)
    = Normal scored
    /\ map route scored = routesOf js
    /\ Permutation scored (allScored sel)
    /\ Permutation (routesOf js) (map route (allScored sel))
    /\ length (allScored sel) = length (routesOf js).
Proof.
  intros Hsel.
  destruct (selectRoute_inv _ _ _ _ Hsel) as [scored [_ [Hs Hc]]].
  destruct (Array_map_scoreRoute_inv _ _ _ _ Hs) as [Hm _].
  destruct (choose_inv _ _ Hc) as [Hall _].
  assert (Hp : Permutation scored (allScored sel))
    by (rewrite Hall; apply rank_perm).
  exists scored. repeat split; auto.
  - rewrite <- Hm. apply Permutation_map, Hp.
  - rewrite <- Hm, length_map. symmetry. apply Permutation_length, Hp.
Qed.

Lemma allScored_is_permutation_witness :
  exists scored,
    Array_map (scoreRoute Sample.booleanIntersects Sample.hotspots)
      (routesOf Sample.answer) = Normal scored
    /\ map route scored = routesOf Sample.answer
    /\ Permutation scored (allScored Sample.selection)
    /\ Permutation (routesOf Sample.answer)
         (map route (allScored Sample.selection))
    /\ length (allScored Sample.selection) = length (routesOf Sample.answer).
Proof.
  apply (allScored_is_permutation Sample.booleanIntersects Sample.hotspots
           Sample.answer Sample.selection).
  reflexivity.
Defined.

(** ** The reported maximum *)

Lemma Math_max_list_max (x : nat) (rest : list nat) :
  Math_max x rest = list_max (x :: rest).
Proof.
  unfold Math_max. revert x.
  induction rest as [|y rest IH]; intros x; cbn.
  - lia.
  - rewrite IH. cbn. lia.
Qed.

(** C8, as the code has it: a winner of risk 0 ends with the status that
    reports no maximum, although another scored route has risk 2. *)
Lemma maxRiskObserved_absent_for_safe_winner :
  selectRoute Sample.booleanIntersects Sample.hotspots Sample.answer
  = Normal Sample.selection
  /\ list_max (map risk (allScored Sample.selection)) = 2
  /\ maxRiskObserved (status Sample.selection) = None.
Proof. repeat split. Qed.

(** C8, amended: when selection returns and the winner's risk is not 0,
    the maximum the status reports is the maximum risk over all scored
    routes; when the winner's risk is 0 the status reports no maximum. *)
Theorem maxRiskObserved_is_max
    (booleanIntersects : LineString -> Polygon -> completion bool)
    (hotspotsGeo : option FeatureCollection)
    (js : Osrm.Response) (sel : Selection) :
  selectRoute booleanIntersects hotspotsGeo js = Normal sel ->
  maxRiskObserved (status sel)
  = if risk (best sel) =? 0 then None
    else Some (list_max (map risk (allScored sel))).
Proof.
  intros Hsel.
  destruct (selectRoute_inv _ _ _ _ Hsel) as [scored [_ [_ Hc]]].
  destruct (choose_inv _ _ Hc) as [Hall [Hhd Hst]].
  rewrite Hst, Hall.
  destruct (risk (best sel) =? 0); [reflexivity|]. cbn.
  destruct (rank scored) as [|b others]; [discriminate|].
  injection Hhd as ->. rewrite Math_max_list_max. reflexivity.
Qed.

Lemma maxRiskObserved_is_max_witness :
  maxRiskObserved (status Sample.riskySelection) = Some 2.
Proof.
  apply (maxRiskObserved_is_max Sample.booleanIntersects Sample.hotspots
           Sample.riskyAnswer Sample.riskySelection).
  reflexivity.
Defined.

(** ** No hotspot data *)

Lemma noHotspots_closedRings (hotspotFC : option FeatureCollection) :
  noHotspots hotspotFC = true -> closedRings hotspotFC = true.
Proof.
  intros H. unfold closedRings, polygons.
  rewrite (noHotspots_features _ H). reflexivity.
Qed.

Lemma noHotspots_intersectsReturns
    (booleanIntersects : LineString -> Polygon -> completion bool)
    (l : LineString) (hotspotFC : option FeatureCollection) :
  noHotspots hotspotFC = true ->
  intersectsReturns booleanIntersects l hotspotFC = true.
Proof.
  intros H. unfold intersectsReturns, polygons.
  rewrite (noHotspots_features _ H). reflexivity.
Qed.

(** C4: when the hotspot collection is absent or empty, every route line
    scores 0; and for a non-empty answer (route lines of at least two
    positions) selection returns, every scored route has risk 0, and the
    winner is a candidate that no candidate exceeds in distance. *)
Theorem no_hotspots_longest_wins
    (booleanIntersects : LineString -> Polygon -> completion bool)
    (hotspotsGeo : option FeatureCollection) (js : Osrm.Response) :
  noHotspots hotspotsGeo = true ->
  Osrm.code js = "Ok" ->
  routesOf js <> [] ->
  Forall (fun r => 2 <= length (Osrm.coordinates r)) (routesOf js) ->
  (forall l, riskScore booleanIntersects l hotspotsGeo = Normal 0)
  /\ exists sel,
       selectRoute booleanIntersects hotspotsGeo js = Normal sel
       /\ Forall (fun s => risk s = 0) (allScored sel)
       /\ In (route (best sel)) (routesOf js)
       /\ Forall (fun r => (Osrm.distance r
                            <= Osrm.distance (route (best sel)))%Q)
            (routesOf js).
Proof.
  intros Hno Hcode Hne Hlen.
  assert (Hzero : forall l, riskScore booleanIntersects l hotspotsGeo
                            = Normal 0)
    by (intros l; unfold riskScore; rewrite Hno; reflexivity).
  split; [exact Hzero|].
  assert (Hret : Forall (fun r => intersectsReturns booleanIntersects
                                    (Osrm.coordinates r) hotspotsGeo = true)
                    (routesOf js)).
  { apply Forall_forall. intros r _.
    apply noHotspots_intersectsReturns, Hno. }
  destruct (selectRoute_returns booleanIntersects hotspotsGeo js Hcode Hne
              Hlen (noHotspots_closedRings _ Hno) Hret)
    as [scored [sel [Hs [_ Hsel]]]].
  destruct (selectRoute_inv _ _ _ _ Hsel) as [scored' [_ [Hs' Hc]]].
  rewrite Hs in Hs'. injection Hs' as <-.
  destruct (Array_map_scoreRoute_inv _ _ _ _ Hs) as [Hm Hfrom].
  destruct (choose_inv _ _ Hc) as [Hall [Hhd _]].
  assert (Hrisk : Forall (fun s => risk s = 0) scored).
  { eapply Forall_impl; [|exact Hfrom].
    intros s [_ [_ [_ Hr]]]. rewrite Hzero in Hr. congruence. }
  assert (Hbest : In (best sel) scored).
  { apply (Permutation_in _ (Permutation_sym (rank_perm scored))).
    destruct (rank scored) as [|b others]; [discriminate|].
    injection Hhd as ->. left. reflexivity. }
  assert (Hleast : Forall (precedes (best sel)) scored).
  { destruct (rank scored) as [|b others] eqn:Hr; [discriminate|].
    injection Hhd as <-. eapply rank_head_least, Hr. }
  rewrite Forall_forall in Hrisk, Hleast, Hfrom.
  exists sel. repeat split.
  - exact Hsel.
  - rewrite Hall.
    apply (Permutation_Forall (rank_perm scored)), Forall_forall, Hrisk.
  - rewrite <- Hm. apply in_map, Hbest.
  - apply Forall_forall. intros r Hr. rewrite <- Hm in Hr.
    apply in_map_iff in Hr. destruct Hr as [s [<- Hs_in]].
    destruct (Hfrom s Hs_in) as [_ [<- _]].
    destruct (Hfrom _ Hbest) as [_ [<- _]].
    destruct (Hleast s Hs_in) as [Hlt|[_ Hd]]; [|exact Hd].
    rewrite (Hrisk s Hs_in) in Hlt. lia.
Qed.

Lemma no_hotspots_longest_wins_witness :
  (forall l, riskScore Sample.booleanIntersects l None = Normal 0)
  /\ exists sel,
       selectRoute Sample.booleanIntersects None Sample.answer = Normal sel
       /\ Forall (fun s => risk s = 0) (allScored sel)
       /\ In (route (best sel)) (routesOf Sample.answer)
       /\ Forall (fun r => (Osrm.distance r
                            <= Osrm.distance (route (best sel)))%Q)
            (routesOf Sample.answer).
Proof.
  apply (no_hotspots_longest_wins Sample.booleanIntersects None Sample.answer).
  - reflexivity.
  - reflexivity.
  - discriminate.
  - repeat constructor.
Defined.

Example no_hotspots_sample :
  selectRoute Sample.booleanIntersects None Sample.answer
  = Normal Sample.unscoredSelection.
Proof. reflexivity. Qed.

(** * Further properties of the front end *)

(** ** Time mode and hotspot file *)

(** X1: whatever the override string and the hour, the effective mode is
    [day] or [night]; used as an override it is returned unchanged at every
    hour. *)
Theorem effectiveMode_day_or_night (timeMode : string) (h h' : Z) :
  (effectiveMode timeMode h = "day" \/ effectiveMode timeMode h = "night")
  /\ effectiveMode (effectiveMode timeMode h) h' = effectiveMode timeMode h.
Proof.
  unfold effectiveMode.
  destruct (String.eqb_spec timeMode "day") as [->|Hd]; cbn; [auto|].
  destruct (String.eqb_spec timeMode "night") as [->|Hn]; cbn; [auto|].
  destruct (nowIsNight h); cbn; auto.
Qed.

(** X2: the file loaded is the night file exactly when the override is
    [night], or is neither [day] nor [night] and the hour is at least 21
    or at most 4; otherwise it is the day file. *)
Theorem hotspotsUrl_night_iff (timeMode : string) (h : Z) :
  (hotspotsUrl timeMode h = "/hotspots_night_ml.geojson"
   \/ hotspotsUrl timeMode h = "/hotspots_day_ml.geojson")
  /\ (hotspotsUrl timeMode h = "/hotspots_night_ml.geojson"
      <-> timeMode = "night"
          \/ (timeMode <> "day" /\ (h >= 21 \/ h <= 4)%Z)).
Proof.
  unfold hotspotsUrl, effectiveMode, nowIsNight.
  destruct (String.eqb_spec timeMode "day") as [->|Hd]; cbn.
  - split; [auto|]. split; [discriminate|].
    intros [H|[H _]]; [discriminate|contradiction].
  - destruct (String.eqb_spec timeMode "night") as [->|Hn]; cbn.
    + split; [auto|]. split; auto.
    + destruct (Z.geb_spec h 21) as [G|G], (Z.leb_spec h 4) as [L|L]; cbn;
        (split; [auto|]); split; intros H;
        try discriminate; try (right; split; [assumption|lia]);
        try reflexivity;
        destruct H as [H|[_ H]]; try contradiction; lia.
Qed.

(** ** More on the risk score *)

Lemma riskScore_loop_from
    (booleanIntersects : LineString -> Polygon -> completion bool)
    (l : LineString) (fs : list Feature) (score : nat) :
  riskScore_loop booleanIntersects l fs score
  = (n <- riskScore_loop booleanIntersects l fs 0 ;; Normal (score + n)).
Proof.
  revert score. induction fs as [|f rest IH]; intros score; cbn.
  - f_equal. lia.
  - destruct (isPolygon f); cbn; [|apply IH].
    destruct (turf_polygon (featureCoordinates f)) as [poly|m]; cbn;
      [|reflexivity].
    destruct (booleanIntersects l poly) as [[|]|m]; cbn;
      [|apply IH|reflexivity].
    rewrite (IH (score + 1)), (IH 1).
    destruct (riskScore_loop booleanIntersects l rest 0); cbn;
      [|reflexivity].
    f_equal. lia.
Qed.

Lemma riskScore_loop_app
    (booleanIntersects : LineString -> Polygon -> completion bool)
    (l : LineString) (fs1 fs2 : list Feature) (score : nat) :
  riskScore_loop booleanIntersects l (fs1 ++ fs2) score
  = (a <- riskScore_loop booleanIntersects l fs1 score ;;
     riskScore_loop booleanIntersects l fs2 a).
Proof.
  revert score. induction fs1 as [|f rest IH]; intros score; cbn.
  - reflexivity.
  - destruct (isPolygon f); cbn; [|apply IH].
    destruct (turf_polygon (featureCoordinates f)) as [poly|m]; cbn;
      [|reflexivity].
    destruct (booleanIntersects l poly) as [[|]|m]; cbn;
      [apply IH|apply IH|reflexivity].
Qed.

Lemma riskScore_normal_iff
    (booleanIntersects : LineString -> Polygon -> completion bool)
    (l : LineString) (hotspotFC : option FeatureCollection) (n : nat) :
  riskScore booleanIntersects l hotspotFC = Normal n
  <-> closedRings hotspotFC = true
      /\ intersectsReturns booleanIntersects l hotspotFC = true
      /\ n = intersectionCount booleanIntersects l hotspotFC.
Proof.
  split.
  - intros Hn.
    destruct (closedRings hotspotFC
              && intersectsReturns booleanIntersects l hotspotFC) eqn:Hok.
    + apply andb_true_iff in Hok. destruct Hok as [Hc Hr].
      rewrite (riskScore_normal _ _ _ Hc Hr) in Hn.
      repeat split; congruence.
    + destruct (riskScore_throws booleanIntersects l _ Hok) as [m Hm].
      congruence.
  - intros [Hc [Hr ->]]. apply riskScore_normal; assumption.
Qed.

(** X3: a score that is returned is at most the number of polygon features
    of the collection, hence at most the number of its features. *)
Theorem riskScore_bounded
    (booleanIntersects : LineString -> Polygon -> completion bool)
    (l : LineString) (hotspotFC : option FeatureCollection) (n : nat) :
  riskScore booleanIntersects l hotspotFC = Normal n ->
  n <= length (polygons hotspotFC)
  /\ length (polygons hotspotFC) <= length (hotspotFeatures hotspotFC).
Proof.
  intros Hn. split.
  - apply riskScore_normal_iff in Hn. destruct Hn as [_ [_ ->]].
    unfold intersectionCount. apply filter_length_le.
  - unfold polygons, polygonsAmong. rewrite length_map.
    apply filter_length_le.
Qed.

Lemma riskScore_bounded_witness :
  2 <= length (polygons Sample.hotspots)
  /\ length (polygons Sample.hotspots)
     <= length (hotspotFeatures Sample.hotspots).
Proof.
  apply (riskScore_bounded Sample.booleanIntersects
           (Osrm.coordinates Sample.risky) Sample.hotspots 2).
  reflexivity.
Defined.

(** X4: the score over two lists of features put end to end is the sum of
    the scores over each; if scoring throws over one of them, it throws
    over the whole with the message met first. *)
Theorem riskScore_app
    (booleanIntersects : LineString -> Polygon -> completion bool)
    (l : LineString) (fs1 fs2 : list Feature) :
  riskScore booleanIntersects l (collectionOf (fs1 ++ fs2))
  = (a <- riskScore booleanIntersects l (collectionOf fs1) ;;
     b <- riskScore booleanIntersects l (collectionOf fs2) ;;
     Normal (a + b)).
Proof.
  rewrite !riskScore_is_loop. unfold collectionOf; cbn.
  rewrite riskScore_loop_app.
  destruct (riskScore_loop booleanIntersects l fs1 0) as [a|m]; cbn;
    [|reflexivity].
  apply riskScore_loop_from.
Qed.

Lemma Permutation_filter {A : Type} (p : A -> bool) (xs ys : list A) :
  Permutation xs ys -> Permutation (filter p xs) (filter p ys).
Proof.
  induction 1 as [|x xs ys _ IH|x y xs|xs ys zs _ IH1 _ IH2]; cbn.
  - constructor.
  - destruct (p x); [apply perm_skip|]; exact IH.
  - destruct (p x), (p y); try reflexivity. apply perm_swap.
  - etransitivity; eassumption.
Qed.

Lemma Permutation_forallb {A : Type} (p : A -> bool) (xs ys : list A) :
  Permutation xs ys -> forallb p xs = forallb p ys.
Proof.
  induction 1 as [|x xs ys _ IH|x y xs|xs ys zs _ IH1 _ IH2]; cbn.
  - reflexivity.
  - rewrite IH. reflexivity.
  - destruct (p x), (p y); reflexivity.
  - congruence.
Qed.

(** X5: the order of the features does not matter: over a rearrangement of
    the features scoring returns the same score, or throws as well. *)
Theorem riskScore_permutation
    (booleanIntersects : LineString -> Polygon -> completion bool)
    (l : LineString) (fs fs' : list Feature) (n : nat) :
  Permutation fs fs' ->
  riskScore booleanIntersects l (collectionOf fs) = Normal n
  <-> riskScore booleanIntersects l (collectionOf fs') = Normal n.
Proof.
  intros Hp. rewrite !riskScore_normal_iff.
  assert (Hpoly : Permutation (polygons (collectionOf fs))
                              (polygons (collectionOf fs'))).
  { unfold polygons, polygonsAmong; cbn.
    apply Permutation_map, Permutation_filter, Hp. }
  assert (Hcount : intersectionCount booleanIntersects l (collectionOf fs)
                   = intersectionCount booleanIntersects l (collectionOf fs')).
  { unfold intersectionCount.
    apply Permutation_length, Permutation_filter, Hpoly. }
  assert (Hclosed : closedRings (collectionOf fs)
                    = closedRings (collectionOf fs'))
    by (apply Permutation_forallb, Hpoly).
  assert (Hret : intersectsReturns booleanIntersects l (collectionOf fs)
                 = intersectsReturns booleanIntersects l (collectionOf fs'))
    by (apply Permutation_forallb, Hpoly).
  rewrite Hcount, Hclosed, Hret. reflexivity.
Qed.

Lemma riskScore_permutation_witness :
  riskScore Sample.booleanIntersects (Osrm.coordinates Sample.risky)
    (collectionOf [Sample.polygonFeature [Sample.square 0 0];
                   Sample.pointFeature])
  = Normal 1
  <-> riskScore Sample.booleanIntersects (Osrm.coordinates Sample.risky)
        (collectionOf [Sample.pointFeature;
                       Sample.polygonFeature [Sample.square 0 0]])
      = Normal 1.
Proof.
  apply (riskScore_permutation Sample.booleanIntersects
           (Osrm.coordinates Sample.risky)
           [Sample.polygonFeature [Sample.square 0 0]; Sample.pointFeature]
           [Sample.pointFeature; Sample.polygonFeature [Sample.square 0 0]]
           1).
  apply perm_swap.
Defined.

(** ** When selection returns, and what it throws *)

Lemma Array_map_Normal {A B : Type} (f : A -> completion B)
    (xs : list A) (ys : list B) :
  Array_map f xs = Normal ys -> Forall2 (fun x y => f x = Normal y) xs ys.
Proof.
  revert ys. induction xs as [|x rest IH]; intros ys; cbn.
  - intros [= <-]. constructor.
  - destruct (f x) as [y|m] eqn:Hy; cbn; [|discriminate].
    destruct (Array_map f rest) as [ys'|m]; cbn; [|discriminate].
    intros [= <-]. constructor; auto.
Qed.

Lemma Array_map_Normal_Forall {A B : Type} (f : A -> completion B)
    (P : A -> Prop) (xs : list A) (ys : list B) :
  Array_map f xs = Normal ys ->
  (forall x y, f x = Normal y -> P x) ->
  Forall P xs.
Proof.
  intros Hm HP. apply Array_map_Normal in Hm.
  induction Hm as [|x y xs' ys' Hx _ IH]; constructor; eauto.
Qed.

Lemma Array_map_Throw {A B : Type} (f : A -> completion B)
    (xs : list A) (m : string) :
  Array_map f xs = Throw m -> exists x, In x xs /\ f x = Throw m.
Proof.
  induction xs as [|x rest IH]; cbn; [discriminate|].
  destruct (f x) as [y|m'] eqn:Hy; cbn.
  - destruct (Array_map f rest) as [ys'|m'']; cbn; [discriminate|].
    intros [= <-]. destruct (IH eq_refl) as [x' [Hin Hx']]. eauto.
  - intros [= <-]. eauto.
Qed.

Lemma scoreRoute_Normal_inv
    (booleanIntersects : LineString -> Polygon -> completion bool)
    (hotspotsGeo : option FeatureCollection) (r : Osrm.Route) (s : Scored) :
  scoreRoute booleanIntersects hotspotsGeo r = Normal s ->
  2 <= length (Osrm.coordinates r)
  /\ closedRings hotspotsGeo = true
  /\ intersectsReturns booleanIntersects (Osrm.coordinates r) hotspotsGeo
     = true.
Proof.
  unfold scoreRoute, turf_lineString.
  destruct (Nat.ltb_spec (length (Osrm.coordinates r)) 2) as [Hlt|Hge]; cbn;
    [discriminate|].
  destruct (riskScore booleanIntersects (Osrm.coordinates r) hotspotsGeo)
    as [k|m] eqn:Hk; cbn; [|discriminate].
  intros _. apply riskScore_normal_iff in Hk. destruct Hk as [Hc [Hr _]].
  repeat split; [lia|exact Hc|exact Hr].
Qed.

(** X6: selection returns a winner exactly when the answer has the code
    [Ok] and at least one route, every route line has at least two
    positions, every polygon feature of the hotspot collection has closed
    rings of at least four positions, and the intersection predicate
    returns for every route line and every polygon feature. *)
Theorem selectRoute_returns_iff
    (booleanIntersects : LineString -> Polygon -> completion bool)
    (hotspotsGeo : option FeatureCollection) (js : Osrm.Response) :
  (exists sel, selectRoute booleanIntersects hotspotsGeo js = Normal sel)
  <-> Osrm.code js = "Ok"
      /\ routesOf js <> []
      /\ Forall (fun r => 2 <= length (Osrm.coordinates r)) (routesOf js)
      /\ closedRings hotspotsGeo = true
      /\ Forall (fun r => intersectsReturns booleanIntersects
                            (Osrm.coordinates r) hotspotsGeo = true)
           (routesOf js).
Proof.
  split.
  - intros [sel Hsel].
    destruct (selectRoute_inv _ _ _ _ Hsel) as [scored [Hf [Hs _]]].
    destruct (fetchRoutes_inv _ _ Hf) as [Hcode [_ Hne]].
    assert (Hall : Forall (fun r => 2 <= length (Osrm.coordinates r)
                                    /\ closedRings hotspotsGeo = true
                                    /\ intersectsReturns booleanIntersects
                                         (Osrm.coordinates r) hotspotsGeo
                                       = true)
                     (routesOf js)).
    { eapply Array_map_Normal_Forall; [exact Hs|].
      intros r s Hr. eapply scoreRoute_Normal_inv, Hr. }
    repeat split; auto.
    + eapply Forall_impl; [|exact Hall]. intros r [H _]; exact H.
    + destruct (routesOf js) as [|r rs]; [contradiction|].
      apply Forall_inv in Hall. apply Hall.
    + eapply Forall_impl; [|exact Hall]. intros r [_ [_ H]]; exact H.
  - intros [Hcode [Hne [Hlen [Hok Hret]]]].
    destruct (selectRoute_returns booleanIntersects hotspotsGeo js
                Hcode Hne Hlen Hok Hret) as [scored [sel [_ [_ Hsel]]]].
    eauto.
Qed.

Lemma ring_check_message (ring : list Position) (m : string) :
  ring_check ring = Throw m ->
  m = "Each LinearRing of a Polygon must have 4 or more Positions."
  \/ m = "First and last Position are not equivalent.".
Proof.
  unfold ring_check.
  destruct (length ring <? 4); [intros [= <-]; auto|].
  destruct (position_eqb _ _); [discriminate|intros [= <-]; auto].
Qed.

Lemma turf_polygon_message (coords : list (list Position)) (m : string) :
  turf_polygon coords = Throw m ->
  m = "Each LinearRing of a Polygon must have 4 or more Positions."
  \/ m = "First and last Position are not equivalent.".
Proof.
  unfold turf_polygon.
  destruct (rings_check coords) as [u|m'] eqn:Hc; cbn; [discriminate|].
  intros [= <-]. induction coords as [|ring rest IH]; cbn in Hc.
  - discriminate.
  - destruct (ring_check ring) as [u|m''] eqn:Hr; cbn in Hc.
    + apply IH, Hc.
    + injection Hc as <-. eapply ring_check_message, Hr.
Qed.

Lemma turf_polygon_Normal (coords : list (list Position)) (poly : Polygon) :
  turf_polygon coords = Normal poly -> poly = coords.
Proof.
  unfold turf_polygon. destruct (rings_check coords); cbn; congruence.
Qed.

Lemma riskScore_loop_message
    (booleanIntersects : LineString -> Polygon -> completion bool)
    (l : LineString) (fs : list Feature) (score : nat) (m : string) :
  riskScore_loop booleanIntersects l fs score = Throw m ->
  m = "Each LinearRing of a Polygon must have 4 or more Positions."
  \/ m = "First and last Position are not equivalent."
  \/ exists poly,
       In poly (polygonsAmong fs) /\ booleanIntersects l poly = Throw m.
Proof.
  revert score. induction fs as [|f rest IH]; intros score; cbn.
  - discriminate.
  - unfold polygonsAmong. cbn. fold (polygonsAmong rest).
    destruct (isPolygon f) eqn:Hf; cbn; [|apply IH].
    assert (Hrest : forall k,
               riskScore_loop booleanIntersects l rest k = Throw m ->
               m = "Each LinearRing of a Polygon must have 4 or more Positions."
               \/ m = "First and last Position are not equivalent."
               \/ exists poly,
                    (featureCoordinates f = poly
                     \/ In poly (polygonsAmong rest))
                    /\ booleanIntersects l poly = Throw m).
    { intros k Hk.
      destruct (IH _ Hk) as [E|[E|[poly [Hin Hp]]]]; auto.
      right. right. exists poly. auto. }
    destruct (turf_polygon (featureCoordinates f)) as [poly|m'] eqn:Hp; cbn.
    + apply turf_polygon_Normal in Hp. subst poly.
      destruct (booleanIntersects l (featureCoordinates f)) as [[|]|m']
        eqn:Hb; cbn; [apply Hrest|apply Hrest|].
      intros [= <-]. right. right. exists (featureCoordinates f). auto.
    + intros [= <-].
      destruct (turf_polygon_message _ _ Hp) as [E|E]; auto.
Qed.

Lemma riskScore_message
    (booleanIntersects : LineString -> Polygon -> completion bool)
    (l : LineString) (hotspotFC : option FeatureCollection) (m : string) :
  riskScore booleanIntersects l hotspotFC = Throw m ->
  m = "Each LinearRing of a Polygon must have 4 or more Positions."
  \/ m = "First and last Position are not equivalent."
  \/ exists poly,
       In poly (polygons hotspotFC) /\ booleanIntersects l poly = Throw m.
Proof.
  rewrite riskScore_is_loop. apply riskScore_loop_message.
Qed.

(** X7: when selection throws, the message is the routing failure (the
    answer's message, or [Routing failed]), or the one of [turf.lineString],
    or one of the two of [turf.polygon], or one that the intersection
    predicate threw for a route line and a polygon feature: reading
    [best.risk] of a missing winner never happens. *)
Theorem selectRoute_messages
    (booleanIntersects : LineString -> Polygon -> completion bool)
    (hotspotsGeo : option FeatureCollection) (js : Osrm.Response)
    (m : string) :
  selectRoute booleanIntersects hotspotsGeo js = Throw m ->
  m = string_or (Osrm.message js) "Routing failed"
  \/ m = "coordinates must be an array of two or more positions"
  \/ m = "Each LinearRing of a Polygon must have 4 or more Positions."
  \/ m = "First and last Position are not equivalent."
  \/ exists r poly,
       In r (routesOf js) /\ In poly (polygons hotspotsGeo)
       /\ booleanIntersects (Osrm.coordinates r) poly = Throw m.
Proof.
  unfold selectRoute.
  destruct (fetchRoutes js) as [rs|m'] eqn:Hf; cbn.
  - destruct (fetchRoutes_inv _ _ Hf) as [_ [Hrs Hne]].
    destruct (Array_map (scoreRoute booleanIntersects hotspotsGeo) rs)
      as [scored|m'] eqn:Hs; cbn.
    + intros Hc. exfalso.
      destruct (Array_map_scoreRoute_inv _ _ _ _ Hs) as [Hm _].
      assert (Hsne : scored <> []) by (intros ->; cbn in Hm; auto).
      destruct (choose_returns _ Hsne) as [sel Hsel]. congruence.
    + intros [= <-]. right.
      destruct (Array_map_Throw _ _ _ Hs) as [r [Hin Hr]].
      unfold scoreRoute, turf_lineString in Hr.
      destruct (length (Osrm.coordinates r) <? 2); cbn in Hr.
      * injection Hr as <-. auto.
      * destruct (riskScore booleanIntersects (Osrm.coordinates r)
                    hotspotsGeo) as [k|m''] eqn:Hk; cbn in Hr;
          [discriminate|].
        injection Hr as <-. right.
        destruct (riskScore_message _ _ _ _ Hk) as [E|[E|[poly [Hp Hb]]]];
          auto.
        right. right. exists r, poly. subst rs. auto.
  - intros [= <-]. left. unfold fetchRoutes in Hf.
    destruct (_ || _); congruence.
Qed.

Lemma selectRoute_messages_witness :
  "Cannot read properties of undefined (reading 'length')"
  = string_or (Osrm.message Sample.answer) "Routing failed"
  \/ "Cannot read properties of undefined (reading 'length')"
     = "coordinates must be an array of two or more positions"
  \/ "Cannot read properties of undefined (reading 'length')"
     = "Each LinearRing of a Polygon must have 4 or more Positions."
  \/ "Cannot read properties of undefined (reading 'length')"
     = "First and last Position are not equivalent."
  \/ exists r poly,
       In r (routesOf Sample.answer) /\ In poly (polygons Sample.ringless)
       /\ Sample.booleanIntersects (Osrm.coordinates r) poly
          = Throw "Cannot read properties of undefined (reading 'length')".
Proof.
  apply (selectRoute_messages Sample.booleanIntersects Sample.ringless
           Sample.answer).
  reflexivity.
Defined.

(** ** More on ranking and the status line *)

Lemma precedes_risk (a b : Scored) : precedes a b -> risk a <= risk b.
Proof. intros [H|[H _]]; lia. Qed.

(** X8: ranking a ranked list changes nothing. *)
Theorem rank_idempotent (scored : list Scored) :
  rank (rank scored) = rank scored.
Proof.
  symmetry. apply rank_unique.
  - reflexivity.
  - apply rank_sorted.
  - reflexivity.
Qed.

(** X9: when selection returns, no scored route has a lower risk than the
    winner; the status is the one that says all hotspots are avoided exactly
    when some candidate scores 0; otherwise it shows the winner's risk,
    which is positive, and the largest risk, which is at least the
    winner's. *)
Theorem winner_has_least_risk
    (booleanIntersects : LineString -> Polygon -> completion bool)
    (hotspotsGeo : option FeatureCollection)
    (js : Osrm.Response) (sel : Selection) :
  selectRoute booleanIntersects hotspotsGeo js = Normal sel ->
  Forall (fun s => risk (best sel) <= risk s) (allScored sel)
  /\ (status sel = AvoidsAll
      <-> Exists (fun s => risk s = 0) (allScored sel))
  /\ (status sel <> AvoidsAll ->
      status sel = Safest (risk (best sel))
                     (list_max (map risk (allScored sel)))
      /\ 0 < risk (best sel)
      /\ risk (best sel) <= list_max (map risk (allScored sel))).
Proof.
  intros Hsel.
  destruct (selectRoute_inv _ _ _ _ Hsel) as [scored [_ [_ Hc]]].
  destruct (choose_inv _ _ Hc) as [Hall [Hhd Hst]].
  destruct (rank scored) as [|b others] eqn:Hr; [discriminate|].
  injection Hhd as Hb. cbn [tl] in Hst. rewrite <- Hb in Hst |- *.
  assert (Hleast : Forall (fun s => risk b <= risk s) (allScored sel)).
  { rewrite Hall. pose proof (rank_sorted scored) as Hs. rewrite Hr in Hs.
    apply StronglySorted_inv in Hs. destruct Hs as [_ Hs].
    constructor; [lia|].
    eapply Forall_impl; [|exact Hs]. intros s. apply precedes_risk. }
  split; [exact Hleast|].
  rewrite Math_max_list_max in Hst.
  change (risk b :: map risk others) with (map risk (b :: others)) in Hst.
  rewrite <- Hall in Hst.
  destruct (Nat.eqb_spec (risk b) 0) as [Hz|Hnz].
  - split.
    + split; [|intros _; exact Hst].
      intros _. rewrite Hall. apply Exists_cons_hd. exact Hz.
    + intros Hne. congruence.
  - split.
    + split; [intros Ha; congruence|].
      intros Hex. exfalso. apply Exists_exists in Hex.
      destruct Hex as [s [Hin Hs0]].
      rewrite Forall_forall in Hleast. specialize (Hleast s Hin). lia.
    + intros _. split; [exact Hst|]. split; [lia|].
      rewrite Hall. cbn. lia.
Qed.

Lemma winner_has_least_risk_witness :
  Forall (fun s => risk (best Sample.riskySelection) <= risk s)
    (allScored Sample.riskySelection)
  /\ (status Sample.riskySelection = AvoidsAll
      <-> Exists (fun s => risk s = 0) (allScored Sample.riskySelection))
  /\ (status Sample.riskySelection <> AvoidsAll ->
      status Sample.riskySelection
      = Safest (risk (best Sample.riskySelection))
          (list_max (map risk (allScored Sample.riskySelection)))
      /\ 0 < risk (best Sample.riskySelection)
      /\ risk (best Sample.riskySelection)
         <= list_max (map risk (allScored Sample.riskySelection))).
Proof.
  apply (winner_has_least_risk Sample.booleanIntersects Sample.hotspots
           Sample.riskyAnswer Sample.riskySelection).
  reflexivity.
Defined.

Lemma Array_map_as_map {A B : Type} (f : A -> completion B) (d : B)
    (xs : list A) (ys : list B) :
  Array_map f xs = Normal ys ->
  ys = map (fun x => match f x with Normal y => y | Throw _ => d end) xs.
Proof.
  intros Hm. apply Array_map_Normal in Hm.
  induction Hm as [|x y xs' ys' Hx _ IH]; cbn; [reflexivity|].
  rewrite Hx, IH. reflexivity.
Qed.

Lemma list_max_perm (xs ys : list nat) :
  Permutation xs ys -> list_max xs = list_max ys.
Proof.
  induction 1 as [|x xs ys _ IH|x y xs|xs ys zs _ IH1 _ IH2].
  - reflexivity.
  - cbn. f_equal. exact IH.
  - cbn. lia.
  - congruence.
Qed.

Lemma rank_heads_tied (scored scored' : list Scored) (b b' : Scored)
    (others others' : list Scored) :
  Permutation scored scored' ->
  rank scored = b :: others -> rank scored' = b' :: others' ->
  tied b b' = true.
Proof.
  intros Hp Hr Hr'.
  assert (Hin : forall l x rest, rank l = x :: rest -> In x l).
  { intros l x rest H.
    apply (Permutation_in _ (Permutation_sym (rank_perm l))).
    rewrite H. left. reflexivity. }
  pose proof (rank_head_least _ _ _ Hr) as Hb.
  pose proof (rank_head_least _ _ _ Hr') as Hb'.
  rewrite Forall_forall in Hb, Hb'.
  apply precedes_antisym.
  - apply Hb. apply (Permutation_in _ (Permutation_sym Hp)).
    eapply Hin, Hr'.
  - apply Hb'. apply (Permutation_in _ Hp). eapply Hin, Hr.
Qed.

(** X10: the order in which the routing service lists the routes matters
    only among routes of equal risk and equal distance: for two answers
    with the same routes in different orders, the two winners have the same
    risk and the same distance, the status is the same, and the ranked
    lists hold the same scored routes. *)
Theorem winner_independent_of_order
    (booleanIntersects : LineString -> Polygon -> completion bool)
    (hotspotsGeo : option FeatureCollection)
    (js js' : Osrm.Response) (sel sel' : Selection) :
  Permutation (routesOf js) (routesOf js') ->
  selectRoute booleanIntersects hotspotsGeo js = Normal sel ->
  selectRoute booleanIntersects hotspotsGeo js' = Normal sel' ->
  tied (best sel) (best sel') = true
  /\ status sel = status sel'
  /\ Permutation (allScored sel) (allScored sel').
Proof.
  intros Hp Hsel Hsel'.
  destruct (selectRoute_inv _ _ _ _ Hsel) as [scored [_ [Hs Hc]]].
  destruct (selectRoute_inv _ _ _ _ Hsel') as [scored' [_ [Hs' Hc']]].
  destruct (choose_inv _ _ Hc) as [Hall [Hhd Hst]].
  destruct (choose_inv _ _ Hc') as [Hall' [Hhd' Hst']].
  assert (Hps : Permutation scored scored').
  { rewrite (Array_map_as_map _ (best sel) _ _ Hs).
    rewrite (Array_map_as_map _ (best sel) _ _ Hs').
    apply Permutation_map, Hp. }
  assert (Hpa : Permutation (allScored sel) (allScored sel')).
  { rewrite Hall, Hall'. rewrite <- !rank_perm. exact Hps. }
  destruct (rank scored) as [|b others] eqn:Hr; [discriminate|].
  destruct (rank scored') as [|b' others'] eqn:Hr'; [discriminate|].
  injection Hhd as Hb. injection Hhd' as Hb'.
  cbn [tl] in Hst, Hst'. rewrite Math_max_list_max in Hst, Hst'.
  rewrite <- Hb in Hst |- *. rewrite <- Hb' in Hst' |- *.
  change (risk b :: map risk others) with (map risk (b :: others)) in Hst.
  change (risk b' :: map risk others')
    with (map risk (b' :: others')) in Hst'.
  rewrite <- Hall in Hst. rewrite <- Hall' in Hst'.
  pose proof (rank_heads_tied _ _ _ _ _ _ Hps Hr Hr') as Htied.
  split; [exact Htied|]. split; [|exact Hpa].
  apply tied_spec in Htied. destruct Htied as [Hrisk _].
  rewrite Hst, Hst', Hrisk.
  rewrite (list_max_perm _ _ (Permutation_map risk Hpa)). reflexivity.
Qed.

Lemma winner_independent_of_order_witness :
  tied (best Sample.selection) (best Sample.selection) = true
  /\ status Sample.selection = status Sample.selection
  /\ Permutation (allScored Sample.selection) (allScored Sample.selection).
Proof.
  apply (winner_independent_of_order Sample.booleanIntersects Sample.hotspots
           Sample.answer Sample.answerReordered).
  - cbn. apply Permutation_sym.
    apply (Permutation_cons_app [Sample.risky; Sample.short] []).
    reflexivity.
  - reflexivity.
  - reflexivity.
Defined.

(** ** The route layer *)

Lemma toPosition_toLatLng (p : Position) : toPosition (toLatLng p) = p.
Proof. destruct p; reflexivity. Qed.

Lemma forEach_addTo_plain (xs : list Scored) (idx : nat)
    (group : list Leaflet.Polyline) :
  forEach_addTo routePolyline xs (S idx) group
  = (group ++ map plain xs)%list.
Proof.
  revert idx group. induction xs as [|x rest IH]; intros idx group; cbn.
  - rewrite app_nil_r. reflexivity.
  - rewrite IH, <- app_assoc. reflexivity.
Qed.

Lemma drawRoutes_eq (scored : list Scored) (layer : list Leaflet.Polyline) :
  drawRoutes scored layer
  = (layer ++ match scored with
              | [] => []
              | b :: others => highlighted b :: map plain others
              end)%list.
Proof.
  unfold drawRoutes. destruct scored as [|b others]; cbn.
  - rewrite app_nil_r. reflexivity.
  - rewrite forEach_addTo_plain, <- app_assoc. reflexivity.
Qed.

Lemma filter_plain (xs : list Scored) :
  filter (fun p => (Leaflet.color p =? "#1e88e5")%string) (map plain xs) = [].
Proof.
  induction xs as [|x rest IH]; [reflexivity|]. cbn [map filter].
  exact IH.
Qed.

(** X11: when selection returns, the route layer gets one polyline per
    candidate, in ranked order; the first is the winner's, drawn blue, and
    it is the only blue one; every polyline is its route's line with the
    two ordinates of each position exchanged. *)
Theorem drawRoutes_highlights_winner
    (booleanIntersects : LineString -> Polygon -> completion bool)
    (hotspotsGeo : option FeatureCollection)
    (js : Osrm.Response) (sel : Selection) :
  selectRoute booleanIntersects hotspotsGeo js = Normal sel ->
  drawRoutes (allScored sel) []
  = highlighted (best sel) :: map plain (tl (allScored sel))
  /\ filter (fun p => (Leaflet.color p =? "#1e88e5")%string)
       (drawRoutes (allScored sel) [])
     = [highlighted (best sel)]
  /\ length (drawRoutes (allScored sel) []) = length (routesOf js)
  /\ map (fun p => map toPosition (Leaflet.latlngs p))
       (drawRoutes (allScored sel) [])
     = map (fun s => Osrm.coordinates (route s)) (allScored sel).
Proof.
  intros Hsel.
  destruct (selectRoute_inv _ _ _ _ Hsel) as [scored [_ [Hs Hc]]].
  destruct (Array_map_scoreRoute_inv _ _ _ _ Hs) as [Hm _].
  destruct (choose_inv _ _ Hc) as [Hall [Hhd _]].
  assert (Hlen : length (allScored sel) = length (routesOf js)).
  { rewrite Hall, <- Hm, length_map. symmetry.
    apply Permutation_length, rank_perm. }
  rewrite Hall in *. destruct (rank scored) as [|b others]; [discriminate|].
  injection Hhd as Hb. rewrite <- Hb. rewrite drawRoutes_eq. cbn.
  assert (Hback : forall l : list Position,
             map toPosition (map toLatLng l) = l).
  { intros l. rewrite map_map. rewrite <- (map_id l) at 2.
    apply map_ext. apply toPosition_toLatLng. }
  repeat split.
  - f_equal. apply filter_plain.
  - rewrite length_map. exact Hlen.
  - rewrite Hback. f_equal. rewrite map_map. cbn.
    apply map_ext. intros s. apply Hback.
Qed.

Lemma drawRoutes_highlights_winner_witness :
  drawRoutes (allScored Sample.selection) []
  = highlighted (best Sample.selection)
    :: map plain (tl (allScored Sample.selection))
  /\ filter (fun p => (Leaflet.color p =? "#1e88e5")%string)
       (drawRoutes (allScored Sample.selection) [])
     = [highlighted (best Sample.selection)]
  /\ length (drawRoutes (allScored Sample.selection) [])
     = length (routesOf Sample.answer)
  /\ map (fun p => map toPosition (Leaflet.latlngs p))
       (drawRoutes (allScored Sample.selection) [])
     = map (fun s => Osrm.coordinates (route s))
         (allScored Sample.selection).
Proof.
  apply (drawRoutes_highlights_winner Sample.booleanIntersects Sample.hotspots
           Sample.answer Sample.selection).
  reflexivity.
Defined.

(** ** The hotspot layer *)

Lemma drawHotspots_forEach_shapes (fs : list Feature)
    (group : list Leaflet.Polygon) :
  shapes (drawHotspots_forEach fs group)
  = (group ++ map outerRing (beforeRingless (polygonsAmong fs)))%list.
Proof.
  revert group. induction fs as [|f rest IH]; intros group; cbn.
  - rewrite app_nil_r. reflexivity.
  - unfold polygonsAmong. cbn.
    destruct (isPolygon f) eqn:Hf; cbn; [|apply IH].
    destruct (featureCoordinates f) as [|ring rings] eqn:Hc; cbn.
    + rewrite app_nil_r. reflexivity.
    + rewrite IH, <- app_assoc. reflexivity.
Qed.

Lemma drawHotspots_forEach_thrown (fs : list Feature)
    (group : list Leaflet.Polygon) :
  thrown (drawHotspots_forEach fs group) = None
  <-> Forall (fun poly => poly <> []) (polygonsAmong fs).
Proof.
  revert group. induction fs as [|f rest IH]; intros group; cbn.
  - split; [constructor|reflexivity].
  - unfold polygonsAmong. cbn.
    destruct (isPolygon f) eqn:Hf; cbn; [|apply IH].
    destruct (featureCoordinates f) as [|ring rings] eqn:Hc; cbn.
    + split; [discriminate|]. intros H. apply Forall_inv in H. congruence.
    + rewrite IH. split.
      * intros H. constructor; [discriminate|exact H].
      * intros H. apply Forall_inv_tail in H. exact H.
Qed.

Lemma beforeRingless_all (polys : list Polygon) :
  Forall (fun poly => poly <> []) polys -> beforeRingless polys = polys.
Proof.
  induction 1 as [|poly rest Hp _ IH]; cbn; [reflexivity|].
  destruct poly; [contradiction|]. rewrite IH. reflexivity.
Qed.

(** X12: after the hotspot layer is drawn it holds, in order, the first
    ring of every polygon feature that comes before the first polygon
    feature without rings, with the ordinates of each position exchanged,
    and nothing for the other features.  Drawing goes through exactly when
    every polygon feature has at least one ring, whether its rings are
    closed or not; the layer then holds the first ring of every polygon
    feature. *)
Theorem drawHotspots_outer_rings (hotspotsGeo : option FeatureCollection) :
  shapes (drawHotspots hotspotsGeo)
  = map outerRing (beforeRingless (polygons hotspotsGeo))
  /\ (thrown (drawHotspots hotspotsGeo) = None
      <-> Forall (fun poly => poly <> []) (polygons hotspotsGeo))
  /\ (thrown (drawHotspots hotspotsGeo) = None ->
      shapes (drawHotspots hotspotsGeo)
      = map outerRing (polygons hotspotsGeo)).
Proof.
  assert (Hloop : drawHotspots hotspotsGeo
                  = drawHotspots_forEach (hotspotFeatures hotspotsGeo) []).
  { destruct hotspotsGeo as [[[fs|]]|]; reflexivity. }
  rewrite Hloop. unfold polygons.
  pose proof (drawHotspots_forEach_shapes (hotspotFeatures hotspotsGeo) [])
    as Hshapes.
  pose proof (drawHotspots_forEach_thrown (hotspotFeatures hotspotsGeo) [])
    as Hthrown.
  cbn in Hshapes. split; [exact Hshapes|]. split; [exact Hthrown|].
  intros Hnone. rewrite Hshapes.
  rewrite beforeRingless_all by (apply Hthrown, Hnone). reflexivity.
Qed.

Lemma drawHotspots_outer_rings_witness :
  shapes (drawHotspots Sample.malformed)
  = map outerRing (polygons Sample.malformed)
  /\ shapes (drawHotspots Sample.ringlessSecond)
     = [outerRing [Sample.square 0 0]].
Proof.
  split.
  - apply (proj2 (proj2 (drawHotspots_outer_rings Sample.malformed))).
    reflexivity.
  - apply (proj1 (drawHotspots_outer_rings Sample.ringlessSecond)).
Defined.

(** ** The whole handler *)

Section HandlerFacts.

Variable parseFloat : string -> App.number.
Variable numberToString : App.number -> string.
Variable booleanIntersects : LineString -> Polygon -> completion bool.

Lemma L_marker_finite (p : App.Place) (ll : Leaflet.LatLng) (popup : string) :
  placeLatLng p = Some ll ->
  App.L_marker numberToString p popup = Normal (Leaflet.mkMarker ll popup).
Proof.
  unfold placeLatLng, App.L_marker.
  destruct (App.lat p), (App.lng p); try discriminate.
  intros [= <-]. reflexivity.
Qed.

Lemma L_marker_NaN (p : App.Place) (popup : string) :
  placeLatLng p = None ->
  App.L_marker numberToString p popup
  = Throw (invalidLatLng numberToString p).
Proof.
  unfold placeLatLng, App.L_marker, invalidLatLng.
  destruct (App.lat p), (App.lng p); try discriminate; reflexivity.
Qed.

Lemma caught_invalidLatLng (p : App.Place) (st : App.State) :
  App.caught (invalidLatLng numberToString p) st
  = App.setStatus ("Error: " ++ invalidLatLng numberToString p) st.
Proof. reflexivity. Qed.

End HandlerFacts.

(** X13: the geocoder finds nothing for an answer that is not an array or
    is an empty array, and only then; when it finds nothing for the origin
    or for the destination, the handler ends with the status [Could not
    geocode one of the places.] and leaves the three layers as they were,
    whatever the routing answer and the hotspot collection. *)
Theorem handleGetRoute_geocode_failure
    (parseFloat : string -> App.number)
    (numberToString : App.number -> string)
    (booleanIntersects : LineString -> Polygon -> completion bool)
    (fitBounds : Leaflet.LatLng -> Leaflet.LatLng -> completion unit)
    (jsA jsB : Nominatim.Answer) (hotspotsGeo : option FeatureCollection)
    (js : Osrm.Response) (st : App.State) :
  (App.geocode parseFloat jsA = None
   <-> jsA = Nominatim.NotAnArray \/ jsA = Nominatim.Hits [])
  /\ (App.geocode parseFloat jsA = None
      \/ App.geocode parseFloat jsB = None ->
      App.handleGetRoute parseFloat numberToString booleanIntersects
        fitBounds jsA jsB hotspotsGeo js st
      = App.mkState (App.hotspots st) (App.route st) (App.pins st)
          "Could not geocode one of the places.").
Proof.
  split.
  - destruct jsA as [|[|first rest]]; cbn; split; auto;
      intros H; try discriminate; destruct H; discriminate.
  - unfold App.handleGetRoute. intros [H|H]; rewrite H.
    + reflexivity.
    + destruct (App.geocode parseFloat jsA); reflexivity.
Qed.

Lemma handleGetRoute_geocode_failure_witness :
  App.handleGetRoute SampleRun.parseFloat SampleRun.numberToString
    Sample.booleanIntersects SampleRun.fitBounds
    SampleRun.cityHall SampleRun.nowhere
    Sample.hotspots Sample.answer SampleRun.before
  = App.mkState (App.hotspots SampleRun.before)
      (App.route SampleRun.before) (App.pins SampleRun.before)
      "Could not geocode one of the places.".
Proof.
  apply (proj2 (handleGetRoute_geocode_failure SampleRun.parseFloat
                  SampleRun.numberToString Sample.booleanIntersects
                  SampleRun.fitBounds
                  SampleRun.cityHall SampleRun.nowhere
                  Sample.hotspots Sample.answer SampleRun.before)).
  right. reflexivity.
Defined.

(** X14: when both places are found with ordinates that are numbers, the
    handler replaces the pins by the origin and destination markers.  If
    [fitBounds] then sets the view, the route layer is replaced by the
    polylines of the ranked routes, or left empty if selection throws, and
    the status is the one of the selection, or its error.  If [fitBounds]
    throws, no route is asked for: the route layer is left empty and the
    status is its error.  The hotspot layer is not touched. *)
Theorem handleGetRoute_replaces_layers
    (parseFloat : string -> App.number)
    (numberToString : App.number -> string)
    (booleanIntersects : LineString -> Polygon -> completion bool)
    (fitBounds : Leaflet.LatLng -> Leaflet.LatLng -> completion unit)
    (jsA jsB : Nominatim.Answer) (hotspotsGeo : option FeatureCollection)
    (js : Osrm.Response) (st : App.State)
    (A B : App.Place) (a b : Leaflet.LatLng) :
  App.geocode parseFloat jsA = Some A -> placeLatLng A = Some a ->
  App.geocode parseFloat jsB = Some B -> placeLatLng B = Some b ->
  (fitBounds a b = Normal tt ->
   App.handleGetRoute parseFloat numberToString booleanIntersects
     fitBounds jsA jsB hotspotsGeo js st
   = App.mkState (App.hotspots st)
       match selectRoute booleanIntersects hotspotsGeo js with
       | Normal sel => drawRoutes (allScored sel) []
       | Throw _ => []
       end
       [Leaflet.mkMarker a "Origin"; Leaflet.mkMarker b "Destination"]
       (handleGetRoute booleanIntersects hotspotsGeo js))
  /\ (forall m, fitBounds a b = Throw m ->
      App.handleGetRoute parseFloat numberToString booleanIntersects
        fitBounds jsA jsB hotspotsGeo js st
      = App.mkState (App.hotspots st) []
          [Leaflet.mkMarker a "Origin"; Leaflet.mkMarker b "Destination"]
          ("Error: " ++ string_or (Some m) "Error")).
Proof.
  intros HA Ha HB Hb. unfold App.handleGetRoute. rewrite HA, HB.
  rewrite (L_marker_finite numberToString A a "Origin" Ha).
  rewrite (L_marker_finite numberToString B b "Destination" Hb).
  cbn [Leaflet.latlng]. split.
  - intros Hfit. rewrite Hfit.
    unfold App.routeAndReport, handleGetRoute.
    destruct (selectRoute booleanIntersects hotspotsGeo js) as [sel|m];
      reflexivity.
  - intros m Hfit. rewrite Hfit. reflexivity.
Qed.

Lemma handleGetRoute_replaces_layers_witness :
  App.handleGetRoute SampleRun.parseFloat SampleRun.numberToString
    Sample.booleanIntersects SampleRun.fitBounds
    SampleRun.cityHall SampleRun.airport
    Sample.hotspots Sample.answer SampleRun.before
  = App.mkState (App.hotspots SampleRun.before)
      match selectRoute Sample.booleanIntersects Sample.hotspots
              Sample.answer with
      | Normal sel => drawRoutes (allScored sel) []
      | Throw _ => []
      end
      [Leaflet.mkMarker (34.05, -118.24)%Q "Origin";
       Leaflet.mkMarker (33.94, -118.4)%Q "Destination"]
      (handleGetRoute Sample.booleanIntersects Sample.hotspots Sample.answer)
  /\ App.handleGetRoute SampleRun.parseFloat SampleRun.numberToString
       Sample.booleanIntersects SampleRun.fitBounds
       SampleRun.readingsFar SampleRun.airport
       Sample.hotspots Sample.answer SampleRun.before
     = App.mkState (App.hotspots SampleRun.before) []
         [Leaflet.mkMarker (1e308, 1e308)%Q "Origin";
          Leaflet.mkMarker (33.94, -118.4)%Q "Destination"]
         "Error: Invalid LatLng object: (0, NaN)".
Proof.
  split.
  - apply (proj1 (handleGetRoute_replaces_layers SampleRun.parseFloat
             SampleRun.numberToString Sample.booleanIntersects
             SampleRun.fitBounds
             SampleRun.cityHall SampleRun.airport Sample.hotspots
             Sample.answer SampleRun.before
             (App.mkPlace (MapWithSaferRouting.Finite 34.05%Q)
                          (MapWithSaferRouting.Finite (-118.24)%Q))
             (App.mkPlace (MapWithSaferRouting.Finite 33.94%Q)
                          (MapWithSaferRouting.Finite (-118.4)%Q))
             (34.05, -118.24)%Q (33.94, -118.4)%Q
             eq_refl eq_refl eq_refl eq_refl)).
    reflexivity.
  - apply (proj2 (handleGetRoute_replaces_layers SampleRun.parseFloat
             SampleRun.numberToString Sample.booleanIntersects
             SampleRun.fitBounds
             SampleRun.readingsFar SampleRun.airport Sample.hotspots
             Sample.answer SampleRun.before
             (App.mkPlace (MapWithSaferRouting.Finite 1e308%Q)
                          (MapWithSaferRouting.Finite 1e308%Q))
             (App.mkPlace (MapWithSaferRouting.Finite 33.94%Q)
                          (MapWithSaferRouting.Finite (-118.4)%Q))
             (1e308, 1e308)%Q (33.94, -118.4)%Q
             eq_refl eq_refl eq_refl eq_refl)
           "Invalid LatLng object: (0, NaN)").
    reflexivity.
Defined.

(** X15: a place found with an ordinate that is not a number stops the
    handler at its marker, before any route is asked for: the route layer
    and the pins of the earlier request are gone, the status is Leaflet's
    error, and the pins hold nothing (origin refused) or only the origin
    marker (destination refused). *)
Theorem handleGetRoute_invalid_place
    (parseFloat : string -> App.number)
    (numberToString : App.number -> string)
    (booleanIntersects : LineString -> Polygon -> completion bool)
    (fitBounds : Leaflet.LatLng -> Leaflet.LatLng -> completion unit)
    (jsA jsB : Nominatim.Answer) (hotspotsGeo : option FeatureCollection)
    (js : Osrm.Response) (st : App.State) (A B : App.Place) :
  App.geocode parseFloat jsA = Some A ->
  App.geocode parseFloat jsB = Some B ->
  (placeLatLng A = None ->
   App.handleGetRoute parseFloat numberToString booleanIntersects
     fitBounds jsA jsB hotspotsGeo js st
   = App.mkState (App.hotspots st) [] []
       ("Error: " ++ invalidLatLng numberToString A))
  /\ (forall a, placeLatLng A = Some a -> placeLatLng B = None ->
      App.handleGetRoute parseFloat numberToString booleanIntersects
        fitBounds jsA jsB hotspotsGeo js st
      = App.mkState (App.hotspots st) [] [Leaflet.mkMarker a "Origin"]
          ("Error: " ++ invalidLatLng numberToString B)).
Proof.
  intros HA HB. unfold App.handleGetRoute. rewrite HA, HB. split.
  - intros Hn. rewrite (L_marker_NaN numberToString A "Origin" Hn).
    reflexivity.
  - intros a Ha Hn.
    rewrite (L_marker_finite numberToString A a "Origin" Ha).
    rewrite (L_marker_NaN numberToString B "Destination" Hn).
    reflexivity.
Qed.

Lemma handleGetRoute_invalid_place_witness :
  App.handleGetRoute SampleRun.parseFloat SampleRun.numberToString
    Sample.booleanIntersects SampleRun.fitBounds
    SampleRun.cityHall SampleRun.broken
    Sample.hotspots Sample.answer SampleRun.before
  = App.mkState (App.hotspots SampleRun.before) []
      [Leaflet.mkMarker (34.05, -118.24)%Q "Origin"]
      "Error: Invalid LatLng object: (NaN, -118.4)".
Proof.
  apply (proj2 (handleGetRoute_invalid_place SampleRun.parseFloat
                  SampleRun.numberToString Sample.booleanIntersects
                  SampleRun.fitBounds
                  SampleRun.cityHall SampleRun.broken Sample.hotspots
                  Sample.answer SampleRun.before
                  (App.mkPlace (MapWithSaferRouting.Finite 34.05%Q)
                               (MapWithSaferRouting.Finite (-118.24)%Q))
                  (App.mkPlace MapWithSaferRouting.NaN
                               (MapWithSaferRouting.Finite (-118.4)%Q))
                  eq_refl eq_refl)
           (34.05, -118.24)%Q);
    reflexivity.
Defined.

(** ** The form of the second component *)

Section FormFacts.

Import MapWithSaferRouting.
Import Form.

Lemma lastOf_unwritten (pick : Event -> option number)
    (events : list Event) (default : number) :
  Forall (fun e => pick e = None) events ->
  lastOf pick events default = default.
Proof.
  induction 1 as [|e rest He _ IH]; cbn; [reflexivity|].
  rewrite He. exact IH.
Qed.

Lemma not_written (writes : Event -> bool) (pick : Event -> option number)
    (events : list Event) :
  (forall e, writes e = false -> pick e = None) ->
  existsb writes events = false ->
  Forall (fun e => pick e = None) events.
Proof.
  intros Hw. induction events as [|e rest IH]; cbn; [constructor|].
  intros H. apply orb_false_iff in H. destruct H as [He Hrest].
  constructor; auto.
Qed.

Lemma run_origin (st : State) (events : list Event) :
  origin (run st events)
  = if existsb writesOrigin events
    then Some (lastOf originLat events (latOf (origin st)),
               lastOf originLng events (lngOf (origin st)))
    else origin st.
Proof.
  revert st. induction events as [|e rest IH]; intros st; [reflexivity|].
  change (run st (e :: rest)) with (run (step st e) rest). rewrite IH.
  destruct e; cbn; try reflexivity;
    (destruct (existsb writesOrigin rest) eqn:Hrest; [reflexivity|]);
    rewrite !lastOf_unwritten; try reflexivity;
    (eapply not_written; [|exact Hrest]); intros []; cbn;
    congruence.
Qed.

Lemma run_destination (st : State) (events : list Event) :
  destination (run st events)
  = if existsb writesDestination events
    then Some (lastOf destinationLat events (latOf (destination st)),
               lastOf destinationLng events (lngOf (destination st)))
    else destination st.
Proof.
  revert st. induction events as [|e rest IH]; intros st; [reflexivity|].
  change (run st (e :: rest)) with (run (step st e) rest). rewrite IH.
  destruct e; cbn; try reflexivity;
    (destruct (existsb writesDestination rest) eqn:Hrest; [reflexivity|]);
    rewrite !lastOf_unwritten; try reflexivity;
    (eapply not_written; [|exact Hrest]); intros []; cbn;
    congruence.
Qed.

End FormFacts.

(** X16: after any sequence of inputs from the initial state, the route is
    drawn exactly when some ordinate of the origin and some ordinate of the
    destination have been entered; it then joins the points made of the
    last latitude and the last longitude entered for each, an ordinate
    never entered being 0.  Time mode, detour strength and hotspot loads
    change nothing. *)
Theorem form_route_after_inputs (events : list Form.Event) :
  MapWithSaferRouting.calculateRoute (Form.run Form.initial events)
  = if existsb Form.writesOrigin events
       && existsb Form.writesDestination events
    then [ (Form.lastOf Form.originLat events Form.zero,
            Form.lastOf Form.originLng events Form.zero);
           (Form.lastOf Form.destinationLat events Form.zero,
            Form.lastOf Form.destinationLng events Form.zero) ]
    else [].
Proof.
  unfold MapWithSaferRouting.calculateRoute.
  rewrite run_origin, run_destination. cbn.
  destruct (existsb Form.writesOrigin events),
           (existsb Form.writesDestination events); reflexivity.
Qed.

(** X17: no input takes a point away: once the route is drawn it stays
    drawn, whatever is entered afterwards. *)
Theorem form_route_stays (st : MapWithSaferRouting.State)
    (events : list Form.Event) :
  MapWithSaferRouting.calculateRoute st <> [] ->
  MapWithSaferRouting.calculateRoute (Form.run st events) <> [].
Proof.
  unfold MapWithSaferRouting.calculateRoute.
  rewrite run_origin, run_destination.
  destruct (MapWithSaferRouting.origin st),
    (MapWithSaferRouting.destination st);
    try congruence.
  intros _.
  destruct (existsb Form.writesOrigin events),
           (existsb Form.writesDestination events); discriminate.
Qed.

Lemma form_route_stays_witness :
  MapWithSaferRouting.calculateRoute
    (Form.run
       (Form.run Form.initial
          [Form.OriginLat (MapWithSaferRouting.Finite 34.05%Q);
           Form.DestinationLng (MapWithSaferRouting.Finite (-118.4)%Q)])
       [Form.TimeMode "night"; Form.OriginLng MapWithSaferRouting.NaN])
  <> [].
Proof.
  apply (form_route_stays
           (Form.run Form.initial
              [Form.OriginLat (MapWithSaferRouting.Finite 34.05%Q);
               Form.DestinationLng (MapWithSaferRouting.Finite (-118.4)%Q)])
           [Form.TimeMode "night"; Form.OriginLng MapWithSaferRouting.NaN]).
  discriminate.
Defined.

(** ** The comparator and the sort *)

(** X18: the comparator is consistent, as a sort needs it: exchanging its
    arguments negates its result, it is zero exactly on two routes of equal
    risk and equal distance, and [a] before-or-level-with [b] and [b]
    before-or-level-with [c] give [a] before-or-level-with [c]. *)
Theorem compareFn_consistent (a b c : Scored) :
  (compareFn a b == - compareFn b a)%Q
  /\ ((compareFn a b == 0)%Q <-> tied a b = true)
  /\ ((compareFn a b <= 0)%Q -> (compareFn b c <= 0)%Q ->
      (compareFn a c <= 0)%Q).
Proof.
  split; [|split].
  - unfold compareFn. rewrite (Nat.eqb_sym (risk b) (risk a)).
    destruct (risk a =? risk b); cbn.
    + lra.
    + unfold Qeq; cbn. lia.
  - rewrite tied_spec. unfold compareFn.
    destruct (Nat.eqb_spec (risk a) (risk b)) as [Heq|Hne]; cbn.
    + split.
      * intros H. split; [exact Heq|lra].
      * intros [_ H]. lra.
    + split.
      * unfold Qeq; cbn. lia.
      * intros [H _]. contradiction.
  - rewrite <- !Qle_bool_iff, !compareFn_le. apply precedes_trans.
Qed.

Lemma compareFn_consistent_witness :
  (compareFn (Sample.scoredAs Sample.long 0) (Sample.scoredAs Sample.risky 2)
   <= 0)%Q.
Proof.
  apply (proj2 (proj2 (compareFn_consistent
                         (Sample.scoredAs Sample.long 0)
                         (Sample.scoredAs Sample.short 0)
                         (Sample.scoredAs Sample.risky 2)))).
  - apply Qle_bool_imp_le. reflexivity.
  - apply Qle_bool_imp_le. reflexivity.
Defined.

(** X19: the ranked list does not depend on how the sort is carried out:
    every arrangement of the scored routes that is in ranking order and
    keeps routes of equal risk and distance in their input order is the
    ranked list. *)
Theorem stable_sort_is_rank (scored sorted : list Scored) :
  Permutation scored sorted ->
  StronglySorted precedes sorted ->
  (forall a, filter (tied a) sorted = filter (tied a) scored) ->
  sorted = rank scored.
Proof.
  apply rank_unique.
Qed.

Lemma stable_sort_is_rank_witness :
  [Sample.scoredAs Sample.long 0; Sample.scoredAs Sample.risky 2]
  = rank [Sample.scoredAs Sample.risky 2; Sample.scoredAs Sample.long 0].
Proof.
  apply (stable_sort_is_rank
           [Sample.scoredAs Sample.risky 2; Sample.scoredAs Sample.long 0]
           [Sample.scoredAs Sample.long 0; Sample.scoredAs Sample.risky 2]).
  - apply perm_swap.
  - apply SSorted_cons.
    + apply SSorted_cons; [apply SSorted_nil|apply Forall_nil].
    + apply Forall_cons; [|apply Forall_nil].
      apply (proj1 (compareFn_le _ _)). reflexivity.
  - intros a. cbn.
    destruct (tied a (Sample.scoredAs Sample.long 0)) eqn:H1,
             (tied a (Sample.scoredAs Sample.risky 2)) eqn:H2;
      try reflexivity.
    apply tied_spec in H1. apply tied_spec in H2. cbn in H1, H2.
    destruct H1 as [R1 _]. destruct H2 as [R2 _]. congruence.
Defined.
